(** * gitify: the action dispatcher of main.go, embedded and verified

    The program is a terminal menu over a fixed set of git operations.
    [handleGitAction] maps the selected menu entry to forms shown to the
    user and to invocations of the git executable; [model.Update] is the
    key handler of the menu.

    main.go talks to the outside world in three ways: it spawns git, it
    runs a huh form, and it prints to standard output.  These calls are
    the events of a small interaction tree ([Prog]); the answers come
    from an oracle that may depend on everything that happened before. *)

From Stdlib Require Import String Ascii List ZArith Bool Lia.
Import ListNotations.
Open Scope nat_scope.
Open Scope list_scope.
Open Scope string_scope.

(** ** Go strings

    A Go string is a sequence of bytes; [len] counts bytes and [s[i:]]
    slices by byte offset.  [string] (a list of [ascii]) is the same
    data. *)

Definition newline : ascii := Ascii.ascii_of_nat 10.
Definition nl : string := String newline EmptyString.

(** [len(s)] *)
Definition len (s : string) : nat := String.length s.

(** [s[n:]], for [n <= len(s)] (the only use, [line[3:]], is guarded). *)
Fixpoint slice_from (n : nat) (s : string) : string :=
  match n, s with
  | O, _ => s
  | S n', String _ s' => slice_from n' s'
  | S _, EmptyString => EmptyString
  end.

(** [strings.HasPrefix(s, p)] *)
Fixpoint HasPrefix (s p : string) : bool :=
  match p, s with
  | EmptyString, _ => true
  | String a p', String b s' => Ascii.eqb a b && HasPrefix s' p'
  | String _ _, EmptyString => false
  end.

(** [strings.Contains(s, substr)]: some suffix of [s] starts with
    [substr].  The comparison is byte by byte, hence case-sensitive. *)
Fixpoint Contains (s substr : string) : bool :=
  HasPrefix s substr ||
  match s with
  | EmptyString => false
  | String _ s' => Contains s' substr
  end.

(** [strings.Split(s, sep)] for a one-byte separator: the pieces between
    the separators, [n+1] pieces for [n] separators, so [Split "" sep] is
    [[""]]. *)
Fixpoint Split (s : string) (sep : ascii) : list string :=
  match s with
  | EmptyString => [EmptyString]
  | String c s' =>
      if Ascii.eqb c sep then EmptyString :: Split s' sep
      else match Split s' sep with
           | [] => [String c EmptyString]
           | piece :: pieces => String c piece :: pieces
           end
  end.

(** [strings.Join(pieces, sep)], the inverse of [Split]. *)
Fixpoint Join (pieces : list string) (sep : ascii) : string :=
  match pieces with
  | [] => EmptyString
  | [p] => p
  | p :: rest => p ++ String sep (Join rest sep)
  end.

(** The ASCII part of [strings.TrimSpace]: leading and trailing bytes
    among tab, newline, vertical tab, form feed, carriage return and
    space are dropped.  The dispatcher below is parametric in the trimming
    function; this instance is the one used for concrete runs. *)
Definition asciiSpace (c : ascii) : bool :=
  let n := Ascii.nat_of_ascii c in
  ((9 <=? n) && (n <=? 13) || (n =? 32))%nat.

Fixpoint trimLeft (s : string) : string :=
  match s with
  | EmptyString => EmptyString
  | String c s' => if asciiSpace c then trimLeft s' else s
  end.

Fixpoint trimRight (s : string) : string :=
  match s with
  | EmptyString => EmptyString
  | String c s' =>
      match trimRight s' with
      | EmptyString => if asciiSpace c then EmptyString else String c EmptyString
      | t => String c t
      end
  end.

Definition asciiTrimSpace (s : string) : string := trimRight (trimLeft s).

(** ** Go's [int]

    [menuIndex] is a 64-bit signed integer; [++] and [--] wrap. *)

Definition wrap64 (z : Z) : Z := ((z + 2 ^ 63) mod 2 ^ 64 - 2 ^ 63)%Z.

(** ** The outside world *)

(** A Go [error]: [nil], or a value with its [Error()] text. *)
Definition error : Set := option string.

(** The fields of a huh form, with the settings main.go gives them.
    A validator returns [nil] when it accepts the text. *)
Inductive Field : Set :=
| Input (title placeholder : string) (charLimit : option nat)
        (validate : option (string -> error))
| MultiSelect (title : string) (options : list (string * string))
| Select (title : string) (options : list (string * string))
| Confirm (title : string).

(** The Go type of the value a field holds when the form returns. *)
Definition fieldValue (f : Field) : Set :=
  match f with
  | Input _ _ _ _ => string
  | MultiSelect _ _ => list string
  | Select _ _ => string
  | Confirm _ => bool
  end.

(** The values of all fields of a form (one group), in declaration order. *)
Fixpoint values (fs : list Field) : Set :=
  match fs with
  | [] => unit
  | f :: fs' => (fieldValue f * values fs')%type
  end.

(** What main.go asks of its environment. *)
Inductive Event : Set :=
| CombinedOutput (args : list string)   (* exec.Command("git", args...).CombinedOutput() *)
| Output (args : list string)           (* exec.Command("git", args...).Output() *)
| FormRun (fields : list Field)         (* huh.NewForm(huh.NewGroup(fields...)).Run() *)
| Println (text : string).              (* fmt.Println / fmt.Printf *)

(** What the environment answers: the captured bytes and the error of a
    process; the field values and the error of a form. *)
Definition resp (e : Event) : Set :=
  match e with
  | CombinedOutput _ => (string * error)%type
  | Output _ => (string * error)%type
  | FormRun fields => (values fields * error)%type
  | Println _ => unit
  end.

(** Programs: return, panic, or perform an event and continue with its
    answer. *)
Inductive Prog (A : Type) : Type :=
| Ret (a : A)
| Panic (msg : string)
| Vis (e : Event) (k : resp e -> Prog A).

Arguments Ret {A} a.
Arguments Panic {A} msg.
Arguments Vis {A} e k.

Fixpoint bind {A B : Type} (p : Prog A) (f : A -> Prog B) : Prog B :=
  match p with
  | Ret a => f a
  | Panic msg => Panic msg
  | Vis e k => Vis e (fun r => bind (k r) f)
  end.

Definition trigger (e : Event) : Prog (resp e) := Vis e (fun r => Ret r).

Declare Scope prog_scope.
Delimit Scope prog_scope with prog.
Notation "x <- p ;; q" := (bind p (fun x => q))
  (at level 61, p at next level, right associativity) : prog_scope.
Notation "' pat <- p ;; q" := (bind p (fun x => match x with pat => q end))
  (at level 61, pat pattern, p at next level, right associativity) : prog_scope.
Notation "p ;;; q" := (bind p (fun _ => q))
  (at level 61, right associativity) : prog_scope.
Open Scope prog_scope.

(** The environment: the answer to an event, given the events so far. *)
Definition Oracle : Type := forall (history : list Event) (e : Event), resp e.

(** How a program ends. *)
Inductive Outcome (A : Type) : Type :=
| Done (a : A)
| Panicked (msg : string).

Arguments Done {A} a.
Arguments Panicked {A} msg.

(** [run o h p]: run [p] against [o] after the events [h]; the result and
    the events up to the end. *)
Fixpoint run {A : Type} (o : Oracle) (h : list Event) (p : Prog A)
  : Outcome A * list Event :=
  match p with
  | Ret a => (Done a, h)
  | Panic msg => (Panicked msg, h)
  | Vis e k => run o (h ++ [e])%list (k (o h e))
  end.

(** The git invocations in a list of events, as argument lists. *)
Fixpoint commands (events : list Event) : list (list string) :=
  match events with
  | [] => []
  | CombinedOutput args :: rest => args :: commands rest
  | Output args :: rest => args :: commands rest
  | _ :: rest => commands rest
  end.

(** ** main.go, lines 270-293 *)

(** What [executeGitCommand] makes of the process result:
    [fmt.Sprintf("Error: %s\n%s", err, out)] or [string(out)]. *)
Definition commandText (r : string * error) : string :=
  match r with
  | (out, Some err) => "Error: " ++ err ++ nl ++ out
  | (out, None) => out
  end.

Definition executeGitCommand (args : list string) : Prog string :=
  r <- trigger (CombinedOutput args) ;;
  Ret (commandText r).

(** The loop of [getUnstagedFiles] (lines 286-291): [files] starts as the
    nil slice and grows by [append]. *)
Fixpoint collectFiles (files : list string) (lines : list string) : list string :=
  match lines with
  | [] => files
  | line :: rest =>
      if (3 <? len line)%nat
      then collectFiles (files ++ [slice_from 3 line])%list rest
      else collectFiles files rest
  end.

(** The parser of the status text: what [getUnstagedFiles] does with
    [string(out)]. *)
Definition parseChangedFiles (statusOutput : string) : list string :=
  collectFiles [] (Split statusOutput newline).

Definition getUnstagedFiles : Prog (list string) :=
  r <- trigger (Output ["status"; "--porcelain"]) ;;
  match r with
  | (_, Some _) => Ret ["Error fetching status"]
  | (out, None) => Ret (parseChangedFiles out)
  end.

(** ** main.go, lines 249-266 *)

Record model : Set := { menuIndex : Z; output : string }.

Definition menuOptions : list string :=
  [ "Initialize Repository";
    "Add Remote";
    "Stage Changes";
    "Commit Changes";
    "Push to Remote";
    "Pull from Remote";
    "Show Status";
    "Show Branch";
    "Show Log";
    "Merge Branch";
    "View Diff" ].

(** [model{}] *)
Definition zero_model : model := {| menuIndex := 0; output := "" |}.

(** [menuOptions[i]]: a panic when [i] is out of range. *)
Definition index_string (l : list string) (i : Z) : Prog string :=
  if (i <? 0)%Z then Panic "index out of range"
  else match nth_error l (Z.to_nat i) with
       | Some s => Ret s
       | None => Panic "index out of range"
       end.

(** ** The forms of [handleGitAction] *)

(** The validators of lines 352-357 and 362-367. *)
Definition validateRemoteName (s : string) : error :=
  if s =? "" then Some "remote name cannot be empty" else None.

Definition validateRemoteURL (s : string) : error :=
  if s =? "" then Some "remote URL cannot be empty" else None.

(** Lines 346-369; the values are those of [remoteName] and [remoteURL]. *)
Definition addRemoteForm : list Field :=
  [ Input "Remote Name" "origin" None (Some validateRemoteName);
    Input "Remote URL" "https://github.com/username/repo.git" None
          (Some validateRemoteURL) ].

(** Lines 396-407: one option per file, key and value the file itself; the
    value is that of [selectedOptions]. *)
Definition stageForm (files : list string) : list Field :=
  [ MultiSelect "Select files to stage" (map (fun file => (file, file)) files) ].

(** Lines 426-432; the value is what [inputField.GetValue()] holds. *)
Definition commitForm : list Field :=
  [ Input "Commit Message" "" (Some 100) None ].

(** Lines 466-487; the values are those of [selectedRemote], [branchName]
    and [setUpstream]. *)
Definition pushForm (remotes : list string) (currentBranch : string) : list Field :=
  [ Select "Remote" (map (fun remote => (remote, remote)) remotes);
    Input "Branch" currentBranch None None;
    Confirm "Set as upstream?" ].

(** Go's [any], as far as the fields of a form produce it. *)
Inductive any : Set :=
| AnyString (s : string)
| AnyStrings (l : list string)
| AnyBool (b : bool).

(** [GetValue()] of a [huh.Input]: the text of the field, boxed. *)
Definition Input_GetValue (text : string) : any := AnyString text.

(** The loop of lines 413-420 followed by line 422.  [selectedOptions] is
    the whole selection, [rest] what the loop has not visited yet. *)
Fixpoint stageSelected (files selectedOptions rest : list string) : Prog string :=
  match rest with
  | [] => executeGitCommand ("add" :: selectedOptions)
  | selected :: rest' =>
      if selected =? "select_all" then executeGitCommand ("add" :: files)
      else if selected =? "deselect_all" then Ret "No files staged."
      else stageSelected files selectedOptions rest'
  end.

Section Dispatcher.

(** [strings.TrimSpace], of which the dispatcher only needs that it is a
    function on strings. *)
Variable TrimSpace : string -> string.

(** The cases of the [switch] of [handleGitAction] that can end without a
    [return]: [Some text] is [return text], [None] is leaving the
    [switch]. *)

(** Lines 342-386. *)
Definition caseAddRemote : Prog (option string) :=
  '(vals, err) <- trigger (FormRun addRemoteForm) ;;
  let '(remoteName, (remoteURL, _)) := vals in
  match err with
  | None =>
      if (remoteName =? "") || (remoteURL =? "")
      then Ret (Some "Remote name and URL cannot be empty.")
      else
        addResult <- executeGitCommand ["remote"; "add"; remoteName; remoteURL] ;;
        if Contains addResult "error" || Contains addResult "fatal"
        then Ret (Some ("Failed to add remote: " ++ addResult))
        else
          remotes <- executeGitCommand ["remote"; "-v"] ;;
          Ret (Some ("Remote added successfully: " ++ remoteName ++ " -> " ++ remoteURL
                     ++ nl ++ nl ++ "All remotes:" ++ nl ++ remotes))
  | Some _ => Ret None
  end.

(** Lines 388-423. *)
Definition caseStageChanges : Prog (option string) :=
  files <- getUnstagedFiles ;;
  if (length files =? 0)%nat
  then Ret (Some "No unstaged changes found.")
  else
    '(vals, err) <- trigger (FormRun (stageForm files)) ;;
    let '(selectedOptions, _) := vals in
    match err with
    | None =>
        if (length selectedOptions =? 0)%nat
        then Ret (Some "No files selected.")
        else
          text <- stageSelected files selectedOptions selectedOptions ;;
          Ret (Some text)
    | Some _ => Ret None
    end.

(** Lines 425-448. *)
Definition caseCommitChanges : Prog (option string) :=
  '(vals, err) <- trigger (FormRun commitForm) ;;
  let '(text, _) := vals in
  match err with
  | Some e =>
      trigger (Println ("Error running form: " ++ e ++ nl)) ;;;
      Ret (Some "Error: Failed to run form")
  | None =>
      match Input_GetValue text with
      | AnyString commitMessage =>
          trigger (Println ("Debug: Commit message entered by user: '"
                            ++ commitMessage ++ "'" ++ nl)) ;;;
          out <- executeGitCommand ["commit"; "-am"; commitMessage] ;;
          Ret (Some out)
      | _ =>
          trigger (Println ("Error: Commit message is not a string" ++ nl)) ;;;
          Ret (Some "Error: Invalid commit message")
      end
  end.

(** Lines 450-510. *)
Definition casePushToRemote : Prog (option string) :=
  revParse <- executeGitCommand ["rev-parse"; "--abbrev-ref"; "HEAD"] ;;
  let currentBranch := TrimSpace revParse in
  if (currentBranch =? "") || Contains currentBranch "fatal"
  then Ret (Some "Failed to get current branch.")
  else
    remotesOutput <- executeGitCommand ["remote"] ;;
    if remotesOutput =? ""
    then Ret (Some "No remotes found. Add a remote first.")
    else
      let remotes := Split (TrimSpace remotesOutput) newline in
      '(vals, err) <- trigger (FormRun (pushForm remotes currentBranch)) ;;
      let '(selectedRemote, (branchName, (setUpstream, _))) := vals in
      match err with
      | None =>
          let branchName := if branchName =? "" then currentBranch else branchName in
          let args := ["push"] in
          let args := if setUpstream : bool then (args ++ ["--set-upstream"])%list else args in
          let args := (args ++ [selectedRemote; branchName])%list in
          result <- executeGitCommand args ;;
          if Contains result "error" || Contains result "fatal"
          then Ret (Some ("Push failed: " ++ result))
          else Ret (Some ("Successfully pushed to " ++ selectedRemote ++ "/" ++ branchName
                          ++ nl ++ nl ++ result))
      | Some _ => Ret None
      end.

(** [return executeGitCommand(args...)] *)
Definition returnCommand (args : list string) : Prog (option string) :=
  text <- executeGitCommand args ;; Ret (Some text).

(** Lines 337-532. *)
Definition handleGitAction (action : string) : Prog string :=
  returned <-
    (if action =? "Initialize Repository" then returnCommand ["init"]
     else if action =? "Add Remote" then caseAddRemote
     else if action =? "Stage Changes" then caseStageChanges
     else if action =? "Commit Changes" then caseCommitChanges
     else if action =? "Push to Remote" then casePushToRemote
     else if action =? "Pull from Remote" then returnCommand ["pull"]
     else if action =? "Show Status" then returnCommand ["status"]
     else if action =? "Show Branch" then returnCommand ["branch"]
     else if action =? "Show Log" then returnCommand ["log"; "--oneline"]
     else if action =? "Merge Branch" then returnCommand ["merge"; "main"]
     else if action =? "View Diff" then returnCommand ["diff"]
     else Ret None) ;;
  match returned with
  | Some text => Ret text
  | None => Ret "Unknown action."
  end.

(** ** main.go, lines 299-318 *)

(** A [tea.Msg]: a key message with the name [msg.String()] gives it, or
    any other message. *)
Inductive Msg : Set :=
| KeyMsg (key : string)
| OtherMsg.

(** A [tea.Cmd], as far as [Update] returns one. *)
Inductive Cmd : Set :=
| CmdNil
| Quit.

Definition Update (m : model) (msg : Msg) : Prog (model * Cmd) :=
  match msg with
  | KeyMsg key =>
      if key =? "q" then Ret (m, Quit)
      else if key =? "up" then
        Ret (if (menuIndex m >? 0)%Z
             then {| menuIndex := wrap64 (menuIndex m - 1); output := output m |}
             else m, CmdNil)
      else if key =? "down" then
        Ret (if (menuIndex m <? wrap64 (Z.of_nat (length menuOptions) - 1))%Z
             then {| menuIndex := wrap64 (menuIndex m + 1); output := output m |}
             else m, CmdNil)
      else if key =? "enter" then
        action <- index_string menuOptions (menuIndex m) ;;
        text <- handleGitAction action ;;
        Ret ({| menuIndex := menuIndex m; output := text |}, CmdNil)
      else Ret (m, CmdNil)
  | OtherMsg => Ret (m, CmdNil)
  end.

(** The messages the runtime hands to [Update], one after the other, each
    on the model the previous call returned. *)
Fixpoint updates (m : model) (msgs : list Msg) : Prog model :=
  match msgs with
  | [] => Ret m
  | msg :: rest =>
      '(m', _) <- Update m msg ;;
      updates m' rest
  end.

End Dispatcher.

(** ** The earlier copy of the dispatcher (main.go, lines 104-226)

    The file carries an earlier copy of [handleGitAction] in front of the
    one above.  It differs in two cases: Commit Changes shows the same
    field but commits with a fixed message, and Push to Remote is a plain
    [git push]. *)
Module Rev1.

(** Lines 192-201. *)
Definition caseCommitChanges : Prog (option string) :=
  '(_, err) <- trigger (FormRun commitForm) ;;
  match err with
  | None =>
      out <- executeGitCommand ["commit"; "-am"; "Commit from Gitify"] ;;
      Ret (Some out)
  | Some _ => Ret None
  end.

(** Lines 104-226. *)
Definition handleGitAction (action : string) : Prog string :=
  returned <-
    (if action =? "Initialize Repository" then returnCommand ["init"]
     else if action =? "Add Remote" then caseAddRemote
     else if action =? "Stage Changes" then caseStageChanges
     else if action =? "Commit Changes" then caseCommitChanges
     else if action =? "Push to Remote" then returnCommand ["push"]
     else if action =? "Pull from Remote" then returnCommand ["pull"]
     else if action =? "Show Status" then returnCommand ["status"]
     else if action =? "Show Branch" then returnCommand ["branch"]
     else if action =? "Show Log" then returnCommand ["log"; "--oneline"]
     else if action =? "Merge Branch" then returnCommand ["merge"; "main"]
     else if action =? "View Diff" then returnCommand ["diff"]
     else Ret None) ;;
  match returned with
  | Some text => Ret text
  | None => Ret "Unknown action."
  end.

End Rev1.

(** ** Concrete environments *)

Definition defaultValue (f : Field) : fieldValue f :=
  match f with
  | Input _ _ _ _ => ""
  | MultiSelect _ _ => []
  | Select _ _ => ""
  | Confirm _ => false
  end.

(** The answer [a] as the value of field [f]; the zero value of the
    field's type when [a] has another type. *)
Definition coerce (f : Field) (a : any) : fieldValue f :=
  match f return fieldValue f with
  | Input _ _ _ _ => match a with AnyString s => s | _ => "" end
  | MultiSelect _ _ => match a with AnyStrings l => l | _ => [] end
  | Select _ _ => match a with AnyString s => s | _ => "" end
  | Confirm _ => match a with AnyBool b => b | _ => false end
  end.

(** The answers, one per field, as the values of a form. *)
Fixpoint fill (answers : list any) (fs : list Field) : values fs :=
  match fs return values fs with
  | [] => tt
  | f :: fs' =>
      match answers with
      | [] => (defaultValue f, fill [] fs')
      | a :: answers' => (coerce f a, fill answers' fs')
      end
  end.

(** An environment in which git answers by its arguments and every form
    returns the same answers and error. *)
Definition scripted (git : list string -> string * error)
                    (answers : list any) (formErr : error) : Oracle :=
  fun _ e =>
    match e return resp e with
    | CombinedOutput args => git args
    | Output args => git args
    | FormRun fs => (fill answers fs, formErr)
    | Println _ => tt
    end.

(** A git that prints nothing and succeeds. *)
Definition silentGit (args : list string) : string * error := ("", None).

(** A git whose every answer is a short status listing. *)
Definition statusGit (args : list string) : string * error :=
  (" M main.go" ++ nl ++ "?? a" ++ nl ++ "xyz" ++ nl ++ "A  docs/x.md" ++ nl, None).

(** A git that exits with status 0 and prints a fatal line, whatever it
    is asked. *)
Definition fatalGit (args : list string) : string * error :=
  ("fatal: remote origin already exists.", None).

(** A git on branch main with the remote origin whose push prints a fatal
    line and exits with status 0. *)
Definition fatalPushGit (args : list string) : string * error :=
  match args with
  | "rev-parse" :: _ => ("main" ++ nl, None)
  | "remote" :: _ => ("origin" ++ nl, None)
  | _ => ("fatal: unable to access the remote", None)
  end.

(** A work tree with two untracked files, named like the two
    pseudo-options. *)
Definition untrackedGit (args : list string) : string * error :=
  match args with
  | "status" :: _ => ("?? deselect_all" ++ nl ++ "?? select_all" ++ nl, None)
  | _ => ("", None)
  end.

(** A work tree with a modified file select_all and an untracked file
    deselect_all; git lists tracked changes first. *)
Definition modifiedGit (args : list string) : string * error :=
  match args with
  | "status" :: _ => (" M select_all" ++ nl ++ "?? deselect_all" ++ nl, None)
  | _ => ("", None)
  end.

(** A git that prints a blank line and succeeds. *)
Definition blankGit (args : list string) : string * error := (" " ++ nl, None).

(** A git that prints nothing and exits with status 3. *)
Definition failingGit (args : list string) : string * error :=
  ("", Some "exit status 3").

(** The answers of a user who names the remote origin. *)
Definition originAnswers : list any :=
  [AnyString "origin"; AnyString "https://example.com/repo.git"].

(** huh's error for a form the user aborts. *)
Definition ErrUserAborted : error := Some "user aborted".

(** ** The status parser, in the words of its specification *)

(** A line is kept when it is longer than three bytes. *)
Definition longerThanThree (line : string) : bool := (3 <? String.length line)%nat.

(** A kept line without its first three bytes. *)
Definition dropFirstThree (line : string) : string :=
  String.substring 3 (String.length line - 3) line.

(** The lines of a text: the pieces between its newlines. *)
Definition linesOf (text : string) : list string := Split text newline.

(** The kept lines, each without its first three bytes, in the order of
    the text. *)
Definition parseChangedFiles_spec (statusOutput : string) : list string :=
  map dropFirstThree (filter longerThanThree (linesOf statusOutput)).

(** No byte of [s] is [c]. *)
Fixpoint free_of (c : ascii) (s : string) : bool :=
  match s with
  | EmptyString => true
  | String a s' => negb (Ascii.eqb a c) && free_of c s'
  end.

(** ** Failure markers, in the words of the specification *)

(** [marker] occurs somewhere in [text], byte for byte. *)
Definition occursIn (marker text : string) : Prop :=
  exists before after : string, text = before ++ marker ++ after.

(** The text carries one of the two failure markers. *)
Definition hasFailureMarker (text : string) : Prop :=
  occursIn "error" text \/ occursIn "fatal" text.

(** The success message of Add Remote (lines 384-385). *)
Definition remoteAddedText (remoteName remoteURL remotes : string) : string :=
  "Remote added successfully: " ++ remoteName ++ " -> " ++ remoteURL
  ++ nl ++ nl ++ "All remotes:" ++ nl ++ remotes.

(** The success message of Push to Remote (lines 508-509). *)
Definition pushedText (selectedRemote branchName result : string) : string :=
  "Successfully pushed to " ++ selectedRemote ++ "/" ++ branchName
  ++ nl ++ nl ++ result.

(** The argument list of the push command (lines 494-500). *)
Definition pushArgs (setUpstream : bool) (selectedRemote branchName : string) : list string :=
  ((if setUpstream then ["push"; "--set-upstream"] else ["push"])
   ++ [selectedRemote; branchName])%list.

(** ** Auxiliary notions *)

(** The candidate files of Stage Changes, from the answer of the status
    process (lines 281-292). *)
Definition statusFiles (r : string * error) : list string :=
  match r with
  | (_, Some _) => ["Error fetching status"]
  | (out, None) => parseChangedFiles out
  end.

(** A program that cannot panic, whatever it is answered. *)
Fixpoint total {A : Type} (p : Prog A) : Prop :=
  match p with
  | Ret _ => True
  | Panic _ => False
  | Vis e k => forall r : resp e, total (k r)
  end.

(** The last index of the menu, [len(menuOptions)-1]. *)
Definition lastIndex : Z := Z.of_nat (length menuOptions) - 1.

(** The index points at an entry of the menu. *)
Definition in_menu (m : model) : Prop := (0 <= menuIndex m <= lastIndex)%Z.

(** ** main.go, lines 320-335 *)

Section Rendering.

(** [lipgloss.NewStyle().Foreground(lipgloss.Color(c)).Render(text)]: what
    the terminal library makes of a text in foreground colour [c]. *)
Variable Render : string -> string -> string.

(** The arrow of the selected entry, U+27A1 in UTF-8. *)
Definition arrow : string :=
  String (Ascii.ascii_of_nat 226)
    (String (Ascii.ascii_of_nat 158) (String (Ascii.ascii_of_nat 161) EmptyString)).

(** The loop of lines 324-330: [b] is the builder, [i] the index of the
    first of [options]. *)
Fixpoint viewOptions (menuIndex : Z) (b : string) (i : Z) (options : list string) : string :=
  match options with
  | [] => b
  | option :: rest =>
      let b :=
        if (i =? menuIndex)%Z
        then b ++ (Render "#fab387" (arrow ++ " " ++ option) ++ nl)
        else b ++ ("  " ++ option ++ nl) in
      viewOptions menuIndex b (i + 1)%Z rest
  end.

Definition View (m : model) : string :=
  let b := "Gitify - Manage Git Repos" ++ nl ++ nl in
  let b := viewOptions (menuIndex m) b 0 menuOptions in
  let b := b ++ (nl ++ Render "#cdd6f4" (output m)) in
  let b := b ++ (nl ++ "Press 'q' to exit.") in
  b.

(** The line of an entry that is not selected. *)
Definition plainLine (option : string) : string := "  " ++ option ++ nl.

(** The line of the selected entry. *)
Definition cursorLine (option : string) : string :=
  Render "#fab387" (arrow ++ " " ++ option) ++ nl.

End Rendering.

(** A renderer that leaves the text as it is (a terminal without colours). *)
Definition plainRender (colour text : string) : string := text.

(** The texts of a list, one after the other. *)
Fixpoint concatStrings (l : list string) : string :=
  match l with
  | [] => EmptyString
  | x :: rest => x ++ concatStrings rest
  end.

(** ** Status listings *)

(** A line of [git status --porcelain]: two status bytes, a space, the
    path. *)
Definition statusLine (entry : ascii * ascii * string) : string :=
  let '(x, y, path) := entry in
  String x (String y (String " " path)).

(** A listing: every line ends with a newline. *)
Fixpoint renderStatus (entries : list (ascii * ascii * string)) : string :=
  match entries with
  | [] => EmptyString
  | entry :: rest => statusLine entry ++ String newline (renderStatus rest)
  end.

(** An entry a listing can carry: no newline in the status bytes or in
    the path, and a path that is not empty. *)
Definition wellFormedEntry (entry : ascii * ascii * string) : Prop :=
  let '(x, y, path) := entry in
  x <> newline /\ y <> newline /\ path <> "" /\ free_of newline path = true.

(** ** What a dispatch may do *)

(** The actions that run one command with fixed arguments. *)
Definition fixedActions : list (string * list string) :=
  [ ("Initialize Repository", ["init"]);
    ("Pull from Remote", ["pull"]);
    ("Show Status", ["status"]);
    ("Show Branch", ["branch"]);
    ("Show Log", ["log"; "--oneline"]);
    ("Merge Branch", ["merge"; "main"]);
    ("View Diff", ["diff"]) ].

(** The git subcommands that occur in main.go. *)
Definition subcommands : list string :=
  [ "init"; "remote"; "status"; "add"; "commit"; "rev-parse"; "push"; "pull";
    "branch"; "log"; "merge"; "diff" ].

(** A process event runs one of the subcommands of main.go. *)
Definition knownSubcommand (e : Event) : Prop :=
  match e with
  | CombinedOutput (sub :: _) => In sub subcommands
  | Output (sub :: _) => In sub subcommands
  | CombinedOutput [] => False
  | Output [] => False
  | _ => True
  end.

Definition isCommand (e : Event) : bool :=
  match e with
  | CombinedOutput _ => true
  | Output _ => true
  | _ => false
  end.

Definition isForm (e : Event) : bool :=
  match e with
  | FormRun _ => true
  | _ => false
  end.

(** The forms shown in a list of events. *)
Definition forms (events : list Event) : nat :=
  length (filter isForm events).

(** Every event of the program, whatever it is answered, satisfies [P]. *)
Fixpoint always {A : Type} (P : Event -> Prop) (p : Prog A) : Prop :=
  match p with
  | Ret _ => True
  | Panic _ => True
  | Vis e k => P e /\ forall r : resp e, always P (k r)
  end.

(** On every path the program spawns at most [c] processes and shows at
    most [f] forms. *)
Fixpoint atMost {A : Type} (c f : nat) (p : Prog A) : Prop :=
  match p with
  | Ret _ => True
  | Panic _ => True
  | Vis e k =>
      (isCommand e = true -> 0 < c) /\
      (isForm e = true -> 0 < f) /\
      forall r : resp e,
        atMost (if isCommand e then c - 1 else c) (if isForm e then f - 1 else f) (k r)
  end.

(** The text carries a failure marker, as the dispatcher tests it. *)
Definition markerb (text : string) : bool :=
  Contains text "error" || Contains text "fatal".

(** A model whose index is outside the menu. *)
Definition strayModel : model := {| menuIndex := 11; output := "" |}.

(** A git that answers every command with the status of one untracked
    file. *)
Definition oneFileGit (args : list string) : string * error :=
  ("?? notes.txt" ++ nl, None).

(** A git on branch main without remotes. *)
Definition noRemoteGit (args : list string) : string * error :=
  match args with
  | "rev-parse" :: _ => ("main" ++ nl, None)
  | _ => ("", None)
  end.

(** One step through the tree of a dispatch: split, introduce, decide the
    test in front, or use the lemma on the staging loop. *)
Ltac dispatch_step lemma_bind lemma_stage :=
  match goal with
  | |- True => exact I
  | |- _ /\ _ => split
  | |- In _ subcommands => unfold subcommands; simpl
  | |- _ \/ _ => solve [repeat (first [left; reflexivity | right])]
  | |- _ < _ => lia
  | |- false = true -> _ => discriminate
  | |- forall _, _ => intro
  | |- ?P _ (bind (stageSelected _ _ _) _) =>
      apply lemma_bind; [apply lemma_stage | intros; exact I]
  | |- ?P _ (if ?c then _ else _) => destruct c
  | |- ?P _ (match ?x with _ => _ end) => destruct x
  | |- context [match ?x with _ => _ end] => destruct x
  | |- _ => progress simpl
  end.

(** ** Running programs *)

Lemma run_bind {A B : Type} (o : Oracle) (p : Prog A) (f : A -> Prog B) :
  forall h,
    run o h (bind p f) =
    match run o h p with
    | (Done a, h') => run o h' (f a)
    | (Panicked msg, h') => (Panicked msg, h')
    end.
Proof.
  induction p as [a | msg | e k IH]; intro h; simpl.
  - reflexivity.
  - reflexivity.
  - apply IH.
Qed.

Lemma run_executeGitCommand (o : Oracle) (h : list Event) (args : list string) :
  run o h (executeGitCommand args) =
  (Done (commandText (o h (CombinedOutput args))), (h ++ [CombinedOutput args])%list).
Proof. reflexivity. Qed.

Lemma run_returnCommand (o : Oracle) (h : list Event) (args : list string) :
  run o h (returnCommand args) =
  (Done (Some (commandText (o h (CombinedOutput args)))),
   (h ++ [CombinedOutput args])%list).
Proof. reflexivity. Qed.

Lemma commands_app (l1 l2 : list Event) :
  commands (l1 ++ l2) = (commands l1 ++ commands l2)%list.
Proof.
  induction l1 as [| e l1 IH]; simpl.
  - reflexivity.
  - destruct e; simpl; rewrite IH; reflexivity.
Qed.

(** ** [Split] and [Join] *)

Lemma Split_not_nil (s : string) (sep : ascii) : Split s sep <> [].
Proof.
  destruct s as [| c s]; simpl.
  - discriminate.
  - destruct (Ascii.eqb c sep); [discriminate |].
    destruct (Split s sep); discriminate.
Qed.

(** Joining the pieces gives the text back. *)
Lemma Join_Split (s : string) (sep : ascii) : Join (Split s sep) sep = s.
Proof.
  induction s as [| c s IH]; simpl.
  - reflexivity.
  - destruct (Ascii.eqb c sep) eqn:E.
    + apply Ascii.eqb_eq in E. subst c.
      pose proof (Split_not_nil s sep) as N.
      destruct (Split s sep) as [| p ps]; [contradiction |].
      simpl in *. rewrite IH. reflexivity.
    + pose proof (Split_not_nil s sep) as N.
      destruct (Split s sep) as [| p ps]; [contradiction |].
      destruct ps as [| q qs]; simpl in *; rewrite <- IH; reflexivity.
Qed.

(** No piece contains the separator. *)
Lemma Split_free_of (s : string) (sep : ascii) :
  Forall (fun piece => free_of sep piece = true) (Split s sep).
Proof.
  induction s as [| c s IH]; simpl.
  - constructor; [reflexivity | constructor].
  - destruct (Ascii.eqb c sep) eqn:E.
    + constructor; [reflexivity | exact IH].
    + destruct (Split s sep) as [| p ps].
      * constructor; [simpl; rewrite E; reflexivity | constructor].
      * inversion IH as [| ? ? Hp Hps]; subst.
        constructor; [simpl; rewrite E, Hp; reflexivity | exact Hps].
Qed.

(** ** The status parser *)

Lemma slice_from_3 (line : string) :
  (3 <? len line)%nat = true -> slice_from 3 line = dropFirstThree line.
Proof.
  unfold dropFirstThree, len.
  destruct line as [| a [| b [| c rest]]]; simpl; try discriminate.
  intros _.
  replace (String.length rest - 0) with (String.length rest) by lia.
  clear. induction rest as [| d rest IH]; simpl.
  - reflexivity.
  - rewrite <- IH. reflexivity.
Qed.

Lemma collectFiles_spec (lines files : list string) :
  collectFiles files lines =
  (files ++ map dropFirstThree (filter longerThanThree lines))%list.
Proof.
  revert files.
  induction lines as [| line rest IH]; intro files.
  - simpl. rewrite app_nil_r. reflexivity.
  - cbn [collectFiles filter].
    change (longerThanThree line) with (3 <? len line)%nat.
    destruct (3 <? len line)%nat eqn:E.
    + rewrite IH, <- app_assoc, (slice_from_3 line E). reflexivity.
    + apply IH.
Qed.

(** The loop of the source computes what the specification describes. *)
Lemma parseChangedFiles_refines (statusOutput : string) :
  parseChangedFiles statusOutput = parseChangedFiles_spec statusOutput.
Proof.
  unfold parseChangedFiles, parseChangedFiles_spec, linesOf.
  apply collectFiles_spec.
Qed.

(** C6: on a successful status invocation [getUnstagedFiles] returns the
    lines of the output that are longer than three bytes, each without its
    first three bytes, in the order of the output; shorter lines are left
    out.  The only command issued is [git status --porcelain]. *)
Theorem getUnstagedFiles_parses (o : Oracle) (h : list Event) (out : string) :
  o h (Output ["status"; "--porcelain"]) = (out, None) ->
  run o h getUnstagedFiles =
  (Done (parseChangedFiles_spec out), (h ++ [Output ["status"; "--porcelain"]])%list).
Proof.
  intro Hout. unfold getUnstagedFiles. simpl.
  rewrite Hout. simpl.
  rewrite parseChangedFiles_refines. reflexivity.
Qed.

Lemma getUnstagedFiles_parses_witness :
  run (scripted statusGit [] None) [] getUnstagedFiles =
  (Done ["main.go"; "a"; "docs/x.md"], [Output ["status"; "--porcelain"]]).
Proof.
  exact (getUnstagedFiles_parses (scripted statusGit [] None) [] _ eq_refl).
Defined.

(** ** The dispatcher, case by case *)

Section DispatcherFacts.

Variable TrimSpace : string -> string.
Variable o : Oracle.

Lemma run_handleGitAction (h : list Event) (action : string) (body : Prog (option string)) :
  handleGitAction TrimSpace action =
    bind body (fun returned => match returned with
                               | Some text => Ret text
                               | None => Ret "Unknown action."
                               end) ->
  run o h (handleGitAction TrimSpace action) =
  match run o h body with
  | (Done (Some text), h') => (Done text, h')
  | (Done None, h') => (Done "Unknown action.", h')
  | (Panicked msg, h') => (Panicked msg, h')
  end.
Proof.
  intro E. rewrite E, run_bind.
  destruct (run o h body) as [[[text |] | msg] h']; reflexivity.
Qed.

(** C9: Show Log issues the one command [git log --oneline] and returns
    what [executeGitCommand] returns for it, unchanged. *)
Theorem show_log_runs_log_oneline (h : list Event) :
  run o h (handleGitAction TrimSpace "Show Log") =
    run o h (executeGitCommand ["log"; "--oneline"]) /\
  run o h (handleGitAction TrimSpace "Show Log") =
    (Done (commandText (o h (CombinedOutput ["log"; "--oneline"]))),
     (h ++ [CombinedOutput ["log"; "--oneline"]])%list) /\
  commands [CombinedOutput ["log"; "--oneline"]] = [["log"; "--oneline"]].
Proof.
  repeat split.
Qed.

(** C2, as the later copy of the dispatcher (lines 425-448) has it: when
    the Commit Changes form completes, the text of its field, empty or
    not, is the message of the one commit command that is issued, and the
    command's text is what the dispatch returns. *)
Theorem commit_passes_entered_text (h : list Event) (text : string) :
  o h (FormRun commitForm) = ((text, tt), None) ->
  let debug := Println ("Debug: Commit message entered by user: '" ++ text ++ "'" ++ nl) in
  let shown := (h ++ [FormRun commitForm; debug])%list in
  run o h (handleGitAction TrimSpace "Commit Changes") =
    (Done (commandText (o shown (CombinedOutput ["commit"; "-am"; text]))),
     (h ++ [FormRun commitForm; debug; CombinedOutput ["commit"; "-am"; text]])%list) /\
  commands [FormRun commitForm; debug; CombinedOutput ["commit"; "-am"; text]] =
    [["commit"; "-am"; text]].
Proof.
  intros Hform debug shown. split; [| reflexivity].
  rewrite (run_handleGitAction h "Commit Changes" caseCommitChanges eq_refl).
  unfold caseCommitChanges. simpl. rewrite Hform. simpl.
  subst shown debug. rewrite <- !app_assoc. reflexivity.
Qed.

(** C7: when the Add Remote form completes with an empty name or an empty
    URL, the dispatch returns the cannot-be-empty message and the form is
    the only event: no command is issued. *)
Theorem add_remote_rejects_empty_field (h : list Event) (remoteName remoteURL : string) :
  o h (FormRun addRemoteForm) = ((remoteName, (remoteURL, tt)), None) ->
  remoteName = "" \/ remoteURL = "" ->
  run o h (handleGitAction TrimSpace "Add Remote") =
    (Done "Remote name and URL cannot be empty.", (h ++ [FormRun addRemoteForm])%list) /\
  commands [FormRun addRemoteForm] = [].
Proof.
  intros Hform Hempty. split; [| reflexivity].
  rewrite (run_handleGitAction h "Add Remote" caseAddRemote eq_refl).
  unfold caseAddRemote. simpl. rewrite Hform. simpl.
  assert (E : ((remoteName =? "") || (remoteURL =? ""))%bool = true).
  { destruct Hempty as [-> | ->]; simpl; [reflexivity | apply orb_true_r]. }
  rewrite E. reflexivity.
Qed.

(** C8: when the trimmed text of the branch query is empty, Push to Remote
    returns the branch failure message and the query is the only command:
    neither the remote listing nor a push is issued, and no form is
    shown. *)
Theorem push_stops_on_empty_branch (h : list Event) :
  TrimSpace (commandText (o h (CombinedOutput ["rev-parse"; "--abbrev-ref"; "HEAD"]))) = "" ->
  run o h (handleGitAction TrimSpace "Push to Remote") =
    (Done "Failed to get current branch.",
     (h ++ [CombinedOutput ["rev-parse"; "--abbrev-ref"; "HEAD"]])%list).
Proof.
  intro Hempty.
  rewrite (run_handleGitAction h "Push to Remote" (casePushToRemote TrimSpace) eq_refl).
  unfold casePushToRemote. simpl. rewrite Hempty. reflexivity.
Qed.

End DispatcherFacts.

(** ** [strings.Contains] is substring search *)

Lemma HasPrefix_spec (p s : string) :
  HasPrefix s p = true <-> exists after : string, s = p ++ after.
Proof.
  revert s. induction p as [| a p IH]; intro s; simpl.
  - split; [intros _; exists s; reflexivity | intros _; destruct s; reflexivity].
  - destruct s as [| b s].
    + split; [discriminate | intros [after E]; discriminate].
    + simpl. rewrite andb_true_iff, Ascii.eqb_eq, IH. split.
      * intros [-> [after ->]]. exists after. reflexivity.
      * intros [after E]. injection E as -> ->. split; [reflexivity | eauto].
Qed.

Lemma Contains_spec (marker text : string) :
  Contains text marker = true <-> occursIn marker text.
Proof.
  unfold occursIn.
  induction text as [| c text IH]; cbn [Contains].
  - rewrite orb_false_r, HasPrefix_spec. split.
    + intros [after E]. exists "", after. exact E.
    + intros [[| b before] [after E]].
      * exists after. exact E.
      * discriminate.
  - rewrite orb_true_iff, HasPrefix_spec, IH. split.
    + intros [[after E] | [before [after E]]].
      * exists "", after. exact E.
      * exists (String c before), after. simpl. rewrite E. reflexivity.
    + intros [[| b before] [after E]].
      * left. exists after. exact E.
      * right. simpl in E. injection E as -> ->. eauto.
Qed.

Lemma failureMarker_spec (text : string) :
  (Contains text "error" || Contains text "fatal")%bool = true <-> hasFailureMarker text.
Proof.
  unfold hasFailureMarker.
  rewrite orb_true_iff, !Contains_spec. reflexivity.
Qed.

(** ** Add Remote and Push to Remote after their forms *)

Section Classification.

Variable TrimSpace : string -> string.
Variable o : Oracle.

Lemma run_add_remote (h : list Event) (remoteName remoteURL : string) :
  o h (FormRun addRemoteForm) = ((remoteName, (remoteURL, tt)), None) ->
  remoteName <> "" -> remoteURL <> "" ->
  let add := CombinedOutput ["remote"; "add"; remoteName; remoteURL] in
  let listing := CombinedOutput ["remote"; "-v"] in
  let addResult := commandText (o (h ++ [FormRun addRemoteForm]) add)%list in
  run o h (handleGitAction TrimSpace "Add Remote") =
  if (Contains addResult "error" || Contains addResult "fatal")%bool
  then (Done ("Failed to add remote: " ++ addResult),
        (h ++ [FormRun addRemoteForm; add])%list)
  else (Done (remoteAddedText remoteName remoteURL
                (commandText (o ((h ++ [FormRun addRemoteForm]) ++ [add]) listing)%list)),
        (h ++ [FormRun addRemoteForm; add; listing])%list).
Proof.
  intros Hform Hname Hurl add listing addResult.
  rewrite (run_handleGitAction TrimSpace o h "Add Remote" caseAddRemote eq_refl).
  unfold caseAddRemote. simpl. rewrite Hform. simpl.
  apply String.eqb_neq in Hname, Hurl. rewrite Hname, Hurl. simpl.
  fold add. fold addResult.
  destruct (Contains addResult "error" || Contains addResult "fatal")%bool; simpl.
  - rewrite <- !app_assoc. reflexivity.
  - rewrite <- !app_assoc. reflexivity.
Qed.

Lemma run_push (h : list Event) (selectedRemote branch : string) (setUpstream : bool) :
  let query := CombinedOutput ["rev-parse"; "--abbrev-ref"; "HEAD"] in
  let listing := CombinedOutput ["remote"] in
  let currentBranch := TrimSpace (commandText (o h query)) in
  let remotesOutput := commandText (o (h ++ [query]) listing)%list in
  let form := FormRun (pushForm (Split (TrimSpace remotesOutput) newline) currentBranch) in
  currentBranch <> "" -> Contains currentBranch "fatal" = false ->
  remotesOutput <> "" ->
  o ((h ++ [query]) ++ [listing])%list form = ((selectedRemote, (branch, (setUpstream, tt))), None) ->
  let branchName := if branch =? "" then currentBranch else branch in
  let push := CombinedOutput (pushArgs setUpstream selectedRemote branchName) in
  let result := commandText (o (((h ++ [query]) ++ [listing]) ++ [form]) push)%list in
  run o h (handleGitAction TrimSpace "Push to Remote") =
  (Done (if (Contains result "error" || Contains result "fatal")%bool
         then "Push failed: " ++ result
         else pushedText selectedRemote branchName result),
   (h ++ [query; listing; form; push])%list).
Proof.
  intros query listing currentBranch remotesOutput form Hbranch Hfatal Hremotes Hform
         branchName push result.
  rewrite (run_handleGitAction TrimSpace o h "Push to Remote"
             (casePushToRemote TrimSpace) eq_refl).
  unfold casePushToRemote.
  rewrite run_bind, run_executeGitCommand.
  fold query. fold currentBranch.
  apply String.eqb_neq in Hbranch. rewrite Hbranch, Hfatal. cbn [orb].
  rewrite run_bind, run_executeGitCommand.
  fold listing. fold remotesOutput.
  apply String.eqb_neq in Hremotes. rewrite Hremotes.
  rewrite run_bind. cbn [trigger run]. fold form. rewrite Hform.
  cbn beta iota. fold branchName.
  rewrite run_bind, run_executeGitCommand.
  change (CombinedOutput ((if setUpstream then _ else _) ++ _)%list) with push.
  fold result.
  destruct (Contains result "error" || Contains result "fatal")%bool;
    cbn [run]; rewrite <- !app_assoc; reflexivity.
Qed.

(** C5: in the Add Remote and Push to Remote paths the text returned for
    the command is treated as a failure exactly when it contains "error"
    or "fatal" (byte for byte).  A failure returns the prefixed text and,
    for Add Remote, issues no remote listing; anything else returns the
    success text, for Add Remote after the listing.  The exit status of
    the command plays no part: the answer of the process is arbitrary. *)
Theorem failure_is_textual :
  (forall (h : list Event) (remoteName remoteURL : string),
      o h (FormRun addRemoteForm) = ((remoteName, (remoteURL, tt)), None) ->
      remoteName <> "" -> remoteURL <> "" ->
      let add := CombinedOutput ["remote"; "add"; remoteName; remoteURL] in
      let listing := CombinedOutput ["remote"; "-v"] in
      let addResult := commandText (o (h ++ [FormRun addRemoteForm]) add)%list in
      (hasFailureMarker addResult <->
       run o h (handleGitAction TrimSpace "Add Remote") =
         (Done ("Failed to add remote: " ++ addResult),
          (h ++ [FormRun addRemoteForm; add])%list)) /\
      (~ hasFailureMarker addResult <->
       run o h (handleGitAction TrimSpace "Add Remote") =
         (Done (remoteAddedText remoteName remoteURL
                  (commandText (o ((h ++ [FormRun addRemoteForm]) ++ [add]) listing)%list)),
          (h ++ [FormRun addRemoteForm; add; listing])%list))) /\
  (forall (h : list Event) (selectedRemote branch : string) (setUpstream : bool),
      let query := CombinedOutput ["rev-parse"; "--abbrev-ref"; "HEAD"] in
      let listing := CombinedOutput ["remote"] in
      let currentBranch := TrimSpace (commandText (o h query)) in
      let remotesOutput := commandText (o (h ++ [query]) listing)%list in
      let form := FormRun (pushForm (Split (TrimSpace remotesOutput) newline) currentBranch) in
      currentBranch <> "" -> Contains currentBranch "fatal" = false ->
      remotesOutput <> "" ->
      o ((h ++ [query]) ++ [listing])%list form
        = ((selectedRemote, (branch, (setUpstream, tt))), None) ->
      let branchName := if branch =? "" then currentBranch else branch in
      let push := CombinedOutput (pushArgs setUpstream selectedRemote branchName) in
      let result := commandText (o (((h ++ [query]) ++ [listing]) ++ [form]) push)%list in
      (hasFailureMarker result <->
       run o h (handleGitAction TrimSpace "Push to Remote") =
         (Done ("Push failed: " ++ result), (h ++ [query; listing; form; push])%list)) /\
      (~ hasFailureMarker result <->
       run o h (handleGitAction TrimSpace "Push to Remote") =
         (Done (pushedText selectedRemote branchName result),
          (h ++ [query; listing; form; push])%list))).
Proof.
  split.
  - intros h remoteName remoteURL Hform Hname Hurl add listing addResult.
    pose proof (run_add_remote h remoteName remoteURL Hform Hname Hurl) as R.
    cbv zeta in R. fold add listing addResult in R.
    pose proof (failureMarker_spec addResult) as M.
    destruct (Contains addResult "error" || Contains addResult "fatal")%bool.
    + assert (Hm : hasFailureMarker addResult) by (apply M; reflexivity).
      split; split; intro H.
      * exact R.
      * exact Hm.
      * contradiction.
      * rewrite R in H. discriminate H.
    + assert (Hm : ~ hasFailureMarker addResult).
      { intro H. apply M in H. discriminate H. }
      split; split; intro H.
      * contradiction.
      * rewrite R in H. discriminate H.
      * exact R.
      * exact Hm.
  - intros h selectedRemote branch setUpstream query listing currentBranch remotesOutput
           form Hbranch Hfatal Hremotes Hform branchName push result.
    pose proof (run_push h selectedRemote branch setUpstream
                  Hbranch Hfatal Hremotes Hform) as R.
    cbv zeta in R.
    fold query listing currentBranch remotesOutput form branchName push result in R.
    pose proof (failureMarker_spec result) as M.
    destruct (Contains result "error" || Contains result "fatal")%bool.
    + assert (Hm : hasFailureMarker result) by (apply M; reflexivity).
      split; split; intro H.
      * exact R.
      * exact Hm.
      * contradiction.
      * rewrite R in H. discriminate H.
    + assert (Hm : ~ hasFailureMarker result).
      { intro H. apply M in H. discriminate H. }
      split; split; intro H.
      * contradiction.
      * rewrite R in H. discriminate H.
      * exact R.
      * exact Hm.
Qed.

End Classification.

(** ** Stage Changes *)

Lemma run_getUnstagedFiles (o : Oracle) (h : list Event) :
  run o h getUnstagedFiles =
  (Done (statusFiles (o h (Output ["status"; "--porcelain"]))),
   (h ++ [Output ["status"; "--porcelain"]])%list).
Proof.
  unfold getUnstagedFiles. simpl.
  destruct (o h (Output ["status"; "--porcelain"])) as [out [e |]]; reflexivity.
Qed.

(** The loop stops at a "select_all" when no "deselect_all" comes first. *)
Lemma stageSelected_select_all (files selectedOptions before after : list string) :
  ~ In "deselect_all" before ->
  stageSelected files selectedOptions (before ++ "select_all" :: after)
  = executeGitCommand ("add" :: files).
Proof.
  induction before as [| x before IH]; intro Hnot; simpl.
  - reflexivity.
  - destruct (x =? "select_all") eqn:Hsel; [reflexivity |].
    destruct (x =? "deselect_all") eqn:Hdes.
    + apply String.eqb_eq in Hdes. exfalso. apply Hnot. left. exact Hdes.
    + apply IH. intro Hin. apply Hnot. right. exact Hin.
Qed.

(** The loop stops at a "deselect_all" when no "select_all" comes first. *)
Lemma stageSelected_deselect_all (files selectedOptions before after : list string) :
  ~ In "select_all" before ->
  stageSelected files selectedOptions (before ++ "deselect_all" :: after)
  = Ret "No files staged.".
Proof.
  induction before as [| x before IH]; intro Hnot; simpl.
  - reflexivity.
  - destruct (x =? "select_all") eqn:Hsel.
    + apply String.eqb_eq in Hsel. exfalso. apply Hnot. left. exact Hsel.
    + destruct (x =? "deselect_all") eqn:Hdes; [reflexivity |].
      apply IH. intro Hin. apply Hnot. right. exact Hin.
Qed.

Lemma length_eqb_0 {A : Type} (l : list A) : l <> [] -> (length l =? 0)%nat = false.
Proof. destruct l; [contradiction | reflexivity]. Qed.

Section StageChanges.

Variable TrimSpace : string -> string.
Variable o : Oracle.

(** Stage Changes up to the answer of its form. *)
Lemma run_stage_form (h : list Event) :
  let status := Output ["status"; "--porcelain"] in
  let files := statusFiles (o h status) in
  let form := FormRun (stageForm files) in
  files <> [] ->
  run o h (handleGitAction TrimSpace "Stage Changes") =
  match o (h ++ [status])%list form with
  | ((selectedOptions, _), None) =>
      match selectedOptions with
      | [] => (Done "No files selected.", (h ++ [status; form])%list)
      | _ => run o (h ++ [status; form])%list
                 (stageSelected files selectedOptions selectedOptions)
      end
  | (_, Some _) => (Done "Unknown action.", (h ++ [status; form])%list)
  end.
Proof.
  intros status files form Hfiles.
  rewrite (run_handleGitAction TrimSpace o h "Stage Changes" caseStageChanges eq_refl).
  unfold caseStageChanges.
  rewrite run_bind, run_getUnstagedFiles. fold status. fold files.
  rewrite (length_eqb_0 files Hfiles).
  rewrite run_bind. cbn [trigger run]. fold form.
  rewrite <- !app_assoc. cbn [app].
  destruct (o (h ++ [status])%list form) as [[selectedOptions []] [e |]].
  - reflexivity.
  - destruct selectedOptions as [| s ss].
    + reflexivity.
    + cbn [length Nat.eqb]. rewrite run_bind.
      destruct (run o (h ++ [status; form])%list
                  (stageSelected files (s :: ss) (s :: ss))) as [[text | msg] h'];
        reflexivity.
Qed.

(** C3, as the code has it: when the completed selection contains
    "select_all" and no "deselect_all" stands before it, the stage command
    is issued with the whole candidate list as its paths, whatever else is
    selected. *)
Theorem select_all_stages_all_candidates (h : list Event) (before after : list string) :
  let status := Output ["status"; "--porcelain"] in
  let files := statusFiles (o h status) in
  let form := FormRun (stageForm files) in
  files <> [] ->
  o (h ++ [status])%list form = ((before ++ "select_all" :: after, tt)%list, None) ->
  ~ In "deselect_all" before ->
  run o h (handleGitAction TrimSpace "Stage Changes") =
  (Done (commandText (o (h ++ [status; form])%list (CombinedOutput ("add" :: files)))),
   (h ++ [status; form; CombinedOutput ("add" :: files)])%list).
Proof.
  intros status files form Hfiles Hform Hnot.
  rewrite (run_stage_form h Hfiles).
  fold status. fold files. fold form. rewrite Hform.
  destruct (before ++ "select_all" :: after)%list as [| s ss] eqn:E.
  - destruct before; discriminate E.
  - rewrite <- E, (stageSelected_select_all _ _ _ _ Hnot), run_executeGitCommand.
    rewrite <- app_assoc. reflexivity.
Qed.

(** C4, as the code has it: when the completed selection contains
    "deselect_all" and no "select_all" stands before it, the dispatch
    returns "No files staged." and issues no stage command: the status
    query and the form are the only events. *)
Theorem deselect_all_stages_nothing (h : list Event) (before after : list string) :
  let status := Output ["status"; "--porcelain"] in
  let files := statusFiles (o h status) in
  let form := FormRun (stageForm files) in
  files <> [] ->
  o (h ++ [status])%list form = ((before ++ "deselect_all" :: after, tt)%list, None) ->
  ~ In "select_all" before ->
  run o h (handleGitAction TrimSpace "Stage Changes") =
    (Done "No files staged.", (h ++ [status; form])%list) /\
  commands [status; form] = [["status"; "--porcelain"]].
Proof.
  intros status files form Hfiles Hform Hnot. split; [| reflexivity].
  rewrite (run_stage_form h Hfiles).
  fold status. fold files. fold form. rewrite Hform.
  destruct (before ++ "deselect_all" :: after)%list as [| s ss] eqn:E.
  - destruct before; discriminate E.
  - rewrite <- E, (stageSelected_deselect_all _ _ _ _ Hnot). reflexivity.
Qed.

End StageChanges.

(** C3 fails as stated: with the candidates deselect_all and select_all
    both selected, "select_all" is in the selection, yet no stage command
    is issued and the dispatch answers "No files staged.". *)
Lemma select_all_after_deselect_all_stages_nothing :
  In "select_all" ["deselect_all"; "select_all"] /\
  run (scripted untrackedGit [AnyStrings ["deselect_all"; "select_all"]] None) []
      (handleGitAction asciiTrimSpace "Stage Changes") =
  (Done "No files staged.",
   [Output ["status"; "--porcelain"];
    FormRun (stageForm ["deselect_all"; "select_all"])]).
Proof.
  split.
  - right. left. reflexivity.
  - reflexivity.
Qed.

Lemma select_all_stages_all_candidates_witness :
  run (scripted modifiedGit [AnyStrings ["select_all"; "deselect_all"]] None) []
      (handleGitAction asciiTrimSpace "Stage Changes") =
  (Done "",
   [Output ["status"; "--porcelain"];
    FormRun (stageForm ["select_all"; "deselect_all"]);
    CombinedOutput ["add"; "select_all"; "deselect_all"]]).
Proof.
  apply (select_all_stages_all_candidates asciiTrimSpace
           (scripted modifiedGit [AnyStrings ["select_all"; "deselect_all"]] None)
           [] [] ["deselect_all"]).
  - discriminate.
  - reflexivity.
  - intro H. exact H.
Defined.

(** C4 fails as stated: with the candidates select_all and deselect_all
    both selected, "deselect_all" is in the selection, yet a stage command
    is issued. *)
Lemma deselect_all_after_select_all_stages_files :
  In "deselect_all" ["select_all"; "deselect_all"] /\
  run (scripted modifiedGit [AnyStrings ["select_all"; "deselect_all"]] None) []
      (handleGitAction asciiTrimSpace "Stage Changes") =
  (Done "",
   [Output ["status"; "--porcelain"];
    FormRun (stageForm ["select_all"; "deselect_all"]);
    CombinedOutput ["add"; "select_all"; "deselect_all"]]).
Proof.
  split.
  - right. left. reflexivity.
  - reflexivity.
Qed.

Lemma deselect_all_stages_nothing_witness :
  run (scripted untrackedGit [AnyStrings ["deselect_all"; "select_all"]] None) []
      (handleGitAction asciiTrimSpace "Stage Changes") =
    (Done "No files staged.",
     [Output ["status"; "--porcelain"];
      FormRun (stageForm ["deselect_all"; "select_all"])]) /\
  commands [Output ["status"; "--porcelain"];
            FormRun (stageForm ["deselect_all"; "select_all"])]
  = [["status"; "--porcelain"]].
Proof.
  apply (deselect_all_stages_nothing asciiTrimSpace
           (scripted untrackedGit [AnyStrings ["deselect_all"; "select_all"]] None)
           [] [] ["select_all"]).
  - discriminate.
  - reflexivity.
  - intro H. exact H.
Defined.

(** ** The enter key *)

Section EnterKey.

Variable TrimSpace : string -> string.
Variable o : Oracle.

(** [Update] on the enter key, for an index inside the menu. *)
Lemma run_Update_enter (h : list Event) (m : model) (action : string) :
  (0 <= menuIndex m)%Z ->
  nth_error menuOptions (Z.to_nat (menuIndex m)) = Some action ->
  run o h (Update TrimSpace m (KeyMsg "enter")) =
  match run o h (handleGitAction TrimSpace action) with
  | (Done text, h') => (Done ({| menuIndex := menuIndex m; output := text |}, CmdNil), h')
  | (Panicked msg, h') => (Panicked msg, h')
  end.
Proof.
  intros Hpos Hnth. unfold Update. cbn [String.eqb Ascii.eqb Bool.eqb].
  rewrite run_bind. unfold index_string.
  replace (menuIndex m <? 0)%Z with false by (symmetry; apply Z.ltb_ge; exact Hpos).
  rewrite Hnth. cbn [run]. rewrite run_bind.
  destruct (run o h (handleGitAction TrimSpace action)) as [[text | msg] h']; reflexivity.
Qed.

Lemma run_add_remote_cancelled (h : list Event) (vals : values addRemoteForm) (e : string) :
  o h (FormRun addRemoteForm) = (vals, Some e) ->
  run o h (handleGitAction TrimSpace "Add Remote") =
  (Done "Unknown action.", (h ++ [FormRun addRemoteForm])%list).
Proof.
  intro Hform.
  rewrite (run_handleGitAction TrimSpace o h "Add Remote" caseAddRemote eq_refl).
  unfold caseAddRemote. simpl. rewrite Hform.
  destruct vals as [remoteName [remoteURL []]]. reflexivity.
Qed.

Lemma run_stage_cancelled (h : list Event) :
  let status := Output ["status"; "--porcelain"] in
  let files := statusFiles (o h status) in
  let form := FormRun (stageForm files) in
  files <> [] ->
  forall (vals : values (stageForm files)) (e : string),
    o (h ++ [status])%list form = (vals, Some e) ->
    run o h (handleGitAction TrimSpace "Stage Changes") =
    (Done "Unknown action.", (h ++ [status; form])%list).
Proof.
  intros status files form Hfiles vals e Hform.
  rewrite (run_stage_form TrimSpace o h Hfiles).
  fold status. fold files. fold form. rewrite Hform.
  destruct vals as [selectedOptions []]. reflexivity.
Qed.

Lemma run_commit_cancelled (h : list Event) (vals : values commitForm) (e : string) :
  o h (FormRun commitForm) = (vals, Some e) ->
  run o h (handleGitAction TrimSpace "Commit Changes") =
  (Done "Error: Failed to run form",
   (h ++ [FormRun commitForm; Println ("Error running form: " ++ e ++ nl)])%list).
Proof.
  intro Hform.
  rewrite (run_handleGitAction TrimSpace o h "Commit Changes" caseCommitChanges eq_refl).
  unfold caseCommitChanges. simpl. rewrite Hform.
  destruct vals as [text []]. simpl. rewrite <- app_assoc. reflexivity.
Qed.

Lemma run_push_cancelled (h : list Event) :
  let query := CombinedOutput ["rev-parse"; "--abbrev-ref"; "HEAD"] in
  let listing := CombinedOutput ["remote"] in
  let currentBranch := TrimSpace (commandText (o h query)) in
  let remotesOutput := commandText (o (h ++ [query]) listing)%list in
  let fields := pushForm (Split (TrimSpace remotesOutput) newline) currentBranch in
  currentBranch <> "" -> Contains currentBranch "fatal" = false ->
  remotesOutput <> "" ->
  forall (vals : values fields) (e : string),
    o ((h ++ [query]) ++ [listing])%list (FormRun fields) = (vals, Some e) ->
    run o h (handleGitAction TrimSpace "Push to Remote") =
    (Done "Unknown action.", (h ++ [query; listing; FormRun fields])%list).
Proof.
  intros query listing currentBranch remotesOutput fields Hbranch Hfatal Hremotes vals e Hform.
  rewrite (run_handleGitAction TrimSpace o h "Push to Remote"
             (casePushToRemote TrimSpace) eq_refl).
  unfold casePushToRemote.
  rewrite run_bind, run_executeGitCommand.
  fold query. fold currentBranch.
  apply String.eqb_neq in Hbranch. rewrite Hbranch, Hfatal. cbn [orb].
  rewrite run_bind, run_executeGitCommand.
  fold listing. fold remotesOutput.
  apply String.eqb_neq in Hremotes. rewrite Hremotes.
  rewrite run_bind. cbn [trigger run]. fold fields. rewrite Hform.
  destruct vals as [selectedRemote [branchName [setUpstream []]]].
  cbn [run]. rewrite <- !app_assoc. reflexivity.
Qed.

(** C1, as the code has it: when the form of Add Remote, Stage Changes,
    Commit Changes or Push to Remote returns an error, the dispatch ends
    with the form (for Commit Changes with the line it prints about the
    error): no command follows.  The enter-key update then stores the text
    the dispatch returned as the output, whatever was displayed before,
    and keeps the menu index.  For Commit Changes that text is "Error:
    Failed to run form". *)
Theorem cancelled_form_replaces_output (h : list Event) (e : string) :
  (forall vals : values addRemoteForm,
     o h (FormRun addRemoteForm) = (vals, Some e) ->
     exists text : string,
       run o h (handleGitAction TrimSpace "Add Remote") =
         (Done text, (h ++ [FormRun addRemoteForm])%list) /\
       forall m : model,
         menuIndex m = 1%Z ->
         run o h (Update TrimSpace m (KeyMsg "enter")) =
         (Done ({| menuIndex := 1; output := text |}, CmdNil),
          (h ++ [FormRun addRemoteForm])%list)) /\
  (let status := Output ["status"; "--porcelain"] in
   let files := statusFiles (o h status) in
   files <> [] ->
   forall vals : values (stageForm files),
     o (h ++ [status])%list (FormRun (stageForm files)) = (vals, Some e) ->
     exists text : string,
       run o h (handleGitAction TrimSpace "Stage Changes") =
         (Done text, (h ++ [status; FormRun (stageForm files)])%list) /\
       forall m : model,
         menuIndex m = 2%Z ->
         run o h (Update TrimSpace m (KeyMsg "enter")) =
         (Done ({| menuIndex := 2; output := text |}, CmdNil),
          (h ++ [status; FormRun (stageForm files)])%list)) /\
  (forall vals : values commitForm,
     o h (FormRun commitForm) = (vals, Some e) ->
     let printed := Println ("Error running form: " ++ e ++ nl) in
     run o h (handleGitAction TrimSpace "Commit Changes") =
       (Done "Error: Failed to run form", (h ++ [FormRun commitForm; printed])%list) /\
     forall m : model,
       menuIndex m = 3%Z ->
       run o h (Update TrimSpace m (KeyMsg "enter")) =
       (Done ({| menuIndex := 3; output := "Error: Failed to run form" |}, CmdNil),
        (h ++ [FormRun commitForm; printed])%list)) /\
  (let query := CombinedOutput ["rev-parse"; "--abbrev-ref"; "HEAD"] in
   let listing := CombinedOutput ["remote"] in
   let currentBranch := TrimSpace (commandText (o h query)) in
   let remotesOutput := commandText (o (h ++ [query]) listing)%list in
   let fields := pushForm (Split (TrimSpace remotesOutput) newline) currentBranch in
   currentBranch <> "" -> Contains currentBranch "fatal" = false ->
   remotesOutput <> "" ->
   forall vals : values fields,
     o ((h ++ [query]) ++ [listing])%list (FormRun fields) = (vals, Some e) ->
     exists text : string,
       run o h (handleGitAction TrimSpace "Push to Remote") =
         (Done text, (h ++ [query; listing; FormRun fields])%list) /\
       forall m : model,
         menuIndex m = 4%Z ->
         run o h (Update TrimSpace m (KeyMsg "enter")) =
         (Done ({| menuIndex := 4; output := text |}, CmdNil),
          (h ++ [query; listing; FormRun fields])%list)).
Proof.
  split; [| split; [| split]].
  - intros vals Hform.
    pose proof (run_add_remote_cancelled h vals e Hform) as R.
    eexists. split; [exact R |].
    intros m Hm.
    rewrite (run_Update_enter h m "Add Remote");
      [| rewrite Hm; lia | rewrite Hm; reflexivity].
    rewrite R, Hm. reflexivity.
  - intros status files Hfiles vals Hform.
    pose proof (run_stage_cancelled h Hfiles vals e Hform) as R.
    eexists. split; [exact R |].
    intros m Hm.
    rewrite (run_Update_enter h m "Stage Changes");
      [| rewrite Hm; lia | rewrite Hm; reflexivity].
    rewrite R, Hm. reflexivity.
  - intros vals Hform printed.
    pose proof (run_commit_cancelled h vals e Hform) as R.
    split; [exact R |].
    intros m Hm.
    rewrite (run_Update_enter h m "Commit Changes");
      [| rewrite Hm; lia | rewrite Hm; reflexivity].
    rewrite R, Hm. reflexivity.
  - intros query listing currentBranch remotesOutput fields Hbranch Hfatal Hremotes
           vals Hform.
    pose proof (run_push_cancelled h Hbranch Hfatal Hremotes vals e Hform) as R.
    eexists. split; [exact R |].
    intros m Hm.
    rewrite (run_Update_enter h m "Push to Remote");
      [| rewrite Hm; lia | rewrite Hm; reflexivity].
    rewrite R, Hm. reflexivity.
Qed.

End EnterKey.

(** C1 fails as stated: with "previous" on display, the enter key on
    Commit Changes and an aborted form leave "Error: Failed to run form"
    as the output. *)
Lemma cancelled_commit_overwrites_output :
  run (scripted silentGit [] ErrUserAborted) []
      (Update asciiTrimSpace {| menuIndex := 3; output := "previous" |} (KeyMsg "enter")) =
    (Done ({| menuIndex := 3; output := "Error: Failed to run form" |}, CmdNil),
     [FormRun commitForm; Println ("Error running form: user aborted" ++ nl)]) /\
  "Error: Failed to run form" <> "previous".
Proof.
  split; [reflexivity | discriminate].
Qed.

(** ** The dispatcher never panics *)

Lemma total_run {A : Type} (o : Oracle) (p : Prog A) :
  total p -> forall h, exists (a : A) (h' : list Event), run o h p = (Done a, h').
Proof.
  induction p as [a | msg | e k IH]; simpl; intros Htotal h.
  - exists a, h. reflexivity.
  - contradiction.
  - apply IH, Htotal.
Qed.

Lemma total_bind {A B : Type} (p : Prog A) (f : A -> Prog B) :
  total p -> (forall a, total (f a)) -> total (bind p f).
Proof.
  induction p as [a | msg | e k IH]; simpl; intros Hp Hf.
  - apply Hf.
  - exact Hp.
  - intro r. apply IH; [apply Hp | exact Hf].
Qed.

Lemma total_executeGitCommand (args : list string) : total (executeGitCommand args).
Proof. simpl. intros _. exact I. Qed.

Lemma total_returnCommand (args : list string) : total (returnCommand args).
Proof. simpl. intros _. exact I. Qed.

Lemma total_getUnstagedFiles : total getUnstagedFiles.
Proof. simpl. intros [out [e |]]; exact I. Qed.

Lemma total_stageSelected (files selectedOptions rest : list string) :
  total (stageSelected files selectedOptions rest).
Proof.
  induction rest as [| selected rest IH]; cbn [stageSelected].
  - apply total_executeGitCommand.
  - destruct (selected =? "select_all"); [apply total_executeGitCommand |].
    destruct (selected =? "deselect_all"); [exact I | exact IH].
Qed.

Lemma total_caseAddRemote : total caseAddRemote.
Proof.
  unfold caseAddRemote. apply total_bind.
  - simpl. intros _. exact I.
  - intros [[remoteName [remoteURL []]] [e |]]; [exact I |].
    destruct ((remoteName =? "") || (remoteURL =? ""))%bool; [exact I |].
    apply total_bind; [apply total_executeGitCommand |].
    intro addResult.
    destruct (Contains addResult "error" || Contains addResult "fatal")%bool; [exact I |].
    apply total_bind; [apply total_executeGitCommand |].
    intro remotes. exact I.
Qed.

Lemma total_caseStageChanges : total caseStageChanges.
Proof.
  unfold caseStageChanges. apply total_bind; [apply total_getUnstagedFiles |].
  intro files. destruct (length files =? 0)%nat; [exact I |].
  apply total_bind.
  - simpl. intros _. exact I.
  - intros [[selectedOptions []] [e |]]; [exact I |].
    destruct (length selectedOptions =? 0)%nat; [exact I |].
    apply total_bind; [apply total_stageSelected |].
    intro text. exact I.
Qed.

Lemma total_caseCommitChanges : total caseCommitChanges.
Proof.
  unfold caseCommitChanges. apply total_bind.
  - simpl. intros _. exact I.
  - intros [[text []] [e |]]; simpl; intros; exact I.
Qed.

Lemma total_casePushToRemote (TrimSpace : string -> string) :
  total (casePushToRemote TrimSpace).
Proof.
  unfold casePushToRemote. apply total_bind; [apply total_executeGitCommand |].
  intro revParse. cbv zeta.
  destruct ((TrimSpace revParse =? "") || Contains (TrimSpace revParse) "fatal")%bool;
    [exact I |].
  apply total_bind; [apply total_executeGitCommand |].
  intro remotesOutput.
  destruct (remotesOutput =? ""); [exact I |].
  apply total_bind.
  - simpl. intros _. exact I.
  - intros [[selectedRemote [branchName [setUpstream []]]] [e |]]; [exact I |].
    apply total_bind; [apply total_executeGitCommand |].
    intro result.
    destruct (Contains result "error" || Contains result "fatal")%bool; exact I.
Qed.

Lemma total_handleGitAction (TrimSpace : string -> string) (action : string) :
  total (handleGitAction TrimSpace action).
Proof.
  unfold handleGitAction. apply total_bind.
  - repeat match goal with
           | |- total (if ?c then _ else _) => destruct c
           end;
      first [ apply total_returnCommand
            | apply total_caseAddRemote
            | apply total_caseStageChanges
            | apply total_caseCommitChanges
            | apply total_casePushToRemote
            | exact I ].
  - intros [text |]; exact I.
Qed.

(** ** The menu index *)

Lemma wrap64_small (z : Z) : (- 2 ^ 63 <= z < 2 ^ 63)%Z -> wrap64 z = z.
Proof.
  intro H. unfold wrap64.
  rewrite Z.mod_small by lia. lia.
Qed.

Lemma lastIndex_value : lastIndex = 10%Z.
Proof. reflexivity. Qed.

Section MenuIndex.

Variable TrimSpace : string -> string.
Variable o : Oracle.

(** One call of [Update] returns, and keeps the index inside the menu. *)
Lemma Update_in_menu (h : list Event) (m : model) (msg : Msg) :
  in_menu m ->
  exists (m' : model) (c : Cmd) (h' : list Event),
    run o h (Update TrimSpace m msg) = (Done (m', c), h') /\ in_menu m'.
Proof.
  unfold in_menu. rewrite lastIndex_value. intro Hm.
  destruct msg as [key |]; [| exists m, CmdNil, h; split; [reflexivity | lia]].
  unfold Update.
  destruct (key =? "q"); [exists m, Quit, h; split; [reflexivity | lia] |].
  destruct (key =? "up").
  { destruct (menuIndex m >? 0)%Z eqn:E.
    - eexists _, CmdNil, h. split; [reflexivity |].
      apply Z.gtb_lt in E. cbn [menuIndex]. rewrite wrap64_small; lia.
    - exists m, CmdNil, h. split; [reflexivity | lia]. }
  destruct (key =? "down").
  { change (wrap64 (Z.of_nat (length menuOptions) - 1)) with 10%Z.
    destruct (menuIndex m <? 10)%Z eqn:E.
    - eexists _, CmdNil, h. split; [reflexivity |].
      apply Z.ltb_lt in E. cbn [menuIndex]. rewrite wrap64_small; lia.
    - exists m, CmdNil, h. split; [reflexivity | lia]. }
  destruct (key =? "enter"); [| exists m, CmdNil, h; split; [reflexivity | lia]].
  destruct (nth_error menuOptions (Z.to_nat (menuIndex m))) as [action |] eqn:Hnth.
  - destruct (total_run o _ (total_handleGitAction TrimSpace action) h) as [text [h' R]].
    rewrite run_bind. unfold index_string.
    replace (menuIndex m <? 0)%Z with false by (symmetry; apply Z.ltb_ge; lia).
    rewrite Hnth. cbn [run]. rewrite run_bind, R.
    eexists _, CmdNil, h'. split; [reflexivity |]. cbn [menuIndex]. lia.
  - exfalso. apply nth_error_None in Hnth. cbn [length menuOptions] in Hnth. lia.
Qed.

Lemma updates_in_menu (msgs : list Msg) :
  forall (m : model) (h : list Event),
    in_menu m ->
    exists (m' : model) (h' : list Event),
      run o h (updates TrimSpace m msgs) = (Done m', h') /\ in_menu m'.
Proof.
  induction msgs as [| msg rest IH]; intros m h Hm.
  - exists m, h. split; [reflexivity | exact Hm].
  - destruct (Update_in_menu h m msg Hm) as [m1 [c [h1 [R Hm1]]]].
    destruct (IH m1 h1 Hm1) as [m' [h' [R' Hm']]].
    exists m', h'. split; [| exact Hm'].
    cbn [updates]. rewrite run_bind, R. exact R'.
Qed.

(** C10: from the zero model, every sequence of messages is processed
    without a panic and leaves [menuIndex] between 0 and
    [len(menuOptions)-1]; the up key at index 0 and the down key at the
    last index return the model as it was. *)
Theorem menuIndex_stays_in_menu :
  (forall (msgs : list Msg) (h : list Event),
      exists (m' : model) (h' : list Event),
        run o h (updates TrimSpace zero_model msgs) = (Done m', h') /\
        (0 <= menuIndex m' <= Z.of_nat (length menuOptions) - 1)%Z) /\
  (forall (m : model) (h : list Event),
      menuIndex m = 0%Z ->
      run o h (Update TrimSpace m (KeyMsg "up")) = (Done (m, CmdNil), h)) /\
  (forall (m : model) (h : list Event),
      menuIndex m = (Z.of_nat (length menuOptions) - 1)%Z ->
      run o h (Update TrimSpace m (KeyMsg "down")) = (Done (m, CmdNil), h)).
Proof.
  split; [| split].
  - intros msgs h. apply updates_in_menu.
    unfold in_menu, zero_model. rewrite lastIndex_value. cbn [menuIndex]. lia.
  - intros m h Hm. unfold Update. cbn [String.eqb Ascii.eqb Bool.eqb].
    rewrite Hm. reflexivity.
  - intros m h Hm. unfold Update. cbn [String.eqb Ascii.eqb Bool.eqb].
    rewrite Hm. reflexivity.
Qed.

End MenuIndex.

(** ** Concrete runs *)

Lemma cancelled_form_replaces_output_witness :
  (exists text : string,
     run (scripted silentGit [] ErrUserAborted) []
         (handleGitAction asciiTrimSpace "Add Remote") =
       (Done text, [FormRun addRemoteForm]) /\
     run (scripted silentGit [] ErrUserAborted) []
         (Update asciiTrimSpace {| menuIndex := 1; output := "previous" |} (KeyMsg "enter")) =
       (Done ({| menuIndex := 1; output := text |}, CmdNil), [FormRun addRemoteForm])) /\
  (exists text : string,
     run (scripted statusGit [] ErrUserAborted) []
         (handleGitAction asciiTrimSpace "Stage Changes") =
       (Done text,
        [Output ["status"; "--porcelain"];
         FormRun (stageForm ["main.go"; "a"; "docs/x.md"])]) /\
     run (scripted statusGit [] ErrUserAborted) []
         (Update asciiTrimSpace {| menuIndex := 2; output := "previous" |} (KeyMsg "enter")) =
       (Done ({| menuIndex := 2; output := text |}, CmdNil),
        [Output ["status"; "--porcelain"];
         FormRun (stageForm ["main.go"; "a"; "docs/x.md"])])) /\
  run (scripted silentGit [] ErrUserAborted) []
      (Update asciiTrimSpace {| menuIndex := 3; output := "previous" |} (KeyMsg "enter")) =
    (Done ({| menuIndex := 3; output := "Error: Failed to run form" |}, CmdNil),
     [FormRun commitForm; Println ("Error running form: user aborted" ++ nl)]) /\
  (exists text : string,
     run (scripted fatalPushGit [] ErrUserAborted) []
         (handleGitAction asciiTrimSpace "Push to Remote") =
       (Done text,
        [CombinedOutput ["rev-parse"; "--abbrev-ref"; "HEAD"];
         CombinedOutput ["remote"];
         FormRun (pushForm ["origin"] "main")]) /\
     run (scripted fatalPushGit [] ErrUserAborted) []
         (Update asciiTrimSpace {| menuIndex := 4; output := "previous" |} (KeyMsg "enter")) =
       (Done ({| menuIndex := 4; output := text |}, CmdNil),
        [CombinedOutput ["rev-parse"; "--abbrev-ref"; "HEAD"];
         CombinedOutput ["remote"];
         FormRun (pushForm ["origin"] "main")])).
Proof.
  split; [| split; [| split]].
  - destruct (proj1 (cancelled_form_replaces_output asciiTrimSpace
                       (scripted silentGit [] ErrUserAborted) [] "user aborted")
                ("", ("", tt)) eq_refl) as [text [Hdispatch Hupdate]].
    exists text. split; [exact Hdispatch |].
    exact (Hupdate {| menuIndex := 1; output := "previous" |} eq_refl).
  - assert (Hfiles : statusFiles (scripted statusGit [] ErrUserAborted []
                                    (Output ["status"; "--porcelain"])) <> [])
      by discriminate.
    destruct (proj1 (proj2 (cancelled_form_replaces_output asciiTrimSpace
                              (scripted statusGit [] ErrUserAborted) [] "user aborted"))
                Hfiles ([], tt) eq_refl) as [text [Hdispatch Hupdate]].
    exists text. split; [exact Hdispatch |].
    exact (Hupdate {| menuIndex := 2; output := "previous" |} eq_refl).
  - exact (proj2 (proj1 (proj2 (proj2 (cancelled_form_replaces_output asciiTrimSpace
                                         (scripted silentGit [] ErrUserAborted) []
                                         "user aborted")))
                    ("", tt) eq_refl)
             {| menuIndex := 3; output := "previous" |} eq_refl).
  - assert (Hbranch : "main" <> "") by discriminate.
    assert (Hremotes : "origin" ++ nl <> "") by discriminate.
    destruct (proj2 (proj2 (proj2 (cancelled_form_replaces_output asciiTrimSpace
                                     (scripted fatalPushGit [] ErrUserAborted) []
                                     "user aborted")))
                Hbranch eq_refl Hremotes ("", ("", (false, tt))) eq_refl)
      as [text [Hdispatch Hupdate]].
    exists text. split; [exact Hdispatch |].
    exact (Hupdate {| menuIndex := 4; output := "previous" |} eq_refl).
Defined.

Lemma commit_passes_entered_text_witness :
  (run (scripted silentGit [AnyString ""] None) []
       (handleGitAction asciiTrimSpace "Commit Changes") =
     (Done "",
      [FormRun commitForm;
       Println ("Debug: Commit message entered by user: ''" ++ nl);
       CombinedOutput ["commit"; "-am"; ""]]) /\
   commands [FormRun commitForm;
             Println ("Debug: Commit message entered by user: ''" ++ nl);
             CombinedOutput ["commit"; "-am"; ""]]
   = [["commit"; "-am"; ""]]) /\
  (run (scripted silentGit [AnyString "fix the parser"] None) []
       (handleGitAction asciiTrimSpace "Commit Changes") =
     (Done "",
      [FormRun commitForm;
       Println ("Debug: Commit message entered by user: 'fix the parser'" ++ nl);
       CombinedOutput ["commit"; "-am"; "fix the parser"]]) /\
   commands [FormRun commitForm;
             Println ("Debug: Commit message entered by user: 'fix the parser'" ++ nl);
             CombinedOutput ["commit"; "-am"; "fix the parser"]]
   = [["commit"; "-am"; "fix the parser"]]).
Proof.
  split.
  - exact (commit_passes_entered_text asciiTrimSpace
             (scripted silentGit [AnyString ""] None) [] "" eq_refl).
  - exact (commit_passes_entered_text asciiTrimSpace
             (scripted silentGit [AnyString "fix the parser"] None) []
             "fix the parser" eq_refl).
Defined.

(** C2 fails as stated on the earlier copy (lines 192-201): the user
    enters "fix the parser", the form completes, and the one commit
    command carries the message "Commit from Gitify". *)
Lemma rev1_commit_drops_entered_text :
  run (scripted silentGit [AnyString "fix the parser"] None) []
      (Rev1.handleGitAction "Commit Changes") =
    (Done "", [FormRun commitForm; CombinedOutput ["commit"; "-am"; "Commit from Gitify"]]) /\
  ["commit"; "-am"; "Commit from Gitify"] <> ["commit"; "-am"; "fix the parser"].
Proof.
  split; [reflexivity | discriminate].
Qed.

Lemma failure_is_textual_witness :
  run (scripted fatalGit originAnswers None) []
      (handleGitAction asciiTrimSpace "Add Remote") =
    (Done "Failed to add remote: fatal: remote origin already exists.",
     [FormRun addRemoteForm;
      CombinedOutput ["remote"; "add"; "origin"; "https://example.com/repo.git"]]) /\
  run (scripted fatalPushGit [AnyString "origin"; AnyString ""; AnyBool true] None) []
      (handleGitAction asciiTrimSpace "Push to Remote") =
    (Done "Push failed: fatal: unable to access the remote",
     [CombinedOutput ["rev-parse"; "--abbrev-ref"; "HEAD"];
      CombinedOutput ["remote"];
      FormRun (pushForm ["origin"] "main");
      CombinedOutput ["push"; "--set-upstream"; "origin"; "main"]]).
Proof.
  split.
  - assert (Hname : "origin" <> "") by discriminate.
    assert (Hurl : "https://example.com/repo.git" <> "") by discriminate.
    destruct (proj1 (failure_is_textual asciiTrimSpace (scripted fatalGit originAnswers None))
                [] "origin" "https://example.com/repo.git" eq_refl Hname Hurl)
      as [[Hfailure _] _].
    apply Hfailure. apply failureMarker_spec. reflexivity.
  - assert (Hbranch : "main" <> "") by discriminate.
    assert (Hremotes : "origin" ++ nl <> "") by discriminate.
    destruct (proj2 (failure_is_textual asciiTrimSpace
                       (scripted fatalPushGit
                          [AnyString "origin"; AnyString ""; AnyBool true] None))
                [] "origin" "" true Hbranch eq_refl Hremotes eq_refl)
      as [[Hfailure _] _].
    apply Hfailure. apply failureMarker_spec. reflexivity.
Defined.

(** A command that exits with a non-zero status and prints neither marker
    counts as a success: the listing is fetched and the success text is
    returned. *)
Example nonzero_exit_without_marker_succeeds :
  run (scripted failingGit originAnswers None) []
      (handleGitAction asciiTrimSpace "Add Remote") =
  (Done (remoteAddedText "origin" "https://example.com/repo.git"
           ("Error: exit status 3" ++ nl)),
   [FormRun addRemoteForm;
    CombinedOutput ["remote"; "add"; "origin"; "https://example.com/repo.git"];
    CombinedOutput ["remote"; "-v"]]).
Proof. reflexivity. Qed.

Lemma add_remote_rejects_empty_field_witness :
  run (scripted silentGit [AnyString ""; AnyString "https://example.com/repo.git"] None) []
      (handleGitAction asciiTrimSpace "Add Remote") =
    (Done "Remote name and URL cannot be empty.", [FormRun addRemoteForm]) /\
  commands [FormRun addRemoteForm] = [].
Proof.
  exact (add_remote_rejects_empty_field asciiTrimSpace
           (scripted silentGit [AnyString ""; AnyString "https://example.com/repo.git"] None)
           [] "" "https://example.com/repo.git" eq_refl (or_introl eq_refl)).
Defined.

Lemma push_stops_on_empty_branch_witness :
  run (scripted blankGit [] None) [] (handleGitAction asciiTrimSpace "Push to Remote") =
  (Done "Failed to get current branch.",
   [CombinedOutput ["rev-parse"; "--abbrev-ref"; "HEAD"]]).
Proof.
  exact (push_stops_on_empty_branch asciiTrimSpace (scripted blankGit [] None) [] eq_refl).
Defined.

Lemma menuIndex_stays_in_menu_witness :
  run (scripted silentGit [] None) []
      (Update asciiTrimSpace zero_model (KeyMsg "up")) = (Done (zero_model, CmdNil), []) /\
  run (scripted silentGit [] None) []
      (Update asciiTrimSpace {| menuIndex := 10; output := "" |} (KeyMsg "down")) =
    (Done ({| menuIndex := 10; output := "" |}, CmdNil), []).
Proof.
  split.
  - exact (proj1 (proj2 (menuIndex_stays_in_menu asciiTrimSpace (scripted silentGit [] None)))
             zero_model [] eq_refl).
  - exact (proj2 (proj2 (menuIndex_stays_in_menu asciiTrimSpace (scripted silentGit [] None)))
             {| menuIndex := 10; output := "" |} [] eq_refl).
Defined.

(** A walk over the menu: eleven down keys stop at the last entry, the
    enter key there runs View Diff. *)
Example walk_to_the_last_entry :
  run (scripted silentGit [] None) []
      (updates asciiTrimSpace zero_model (repeat (KeyMsg "down") 11 ++ [KeyMsg "enter"])%list) =
  (Done {| menuIndex := 10; output := "" |}, [CombinedOutput ["diff"]]).
Proof. reflexivity. Qed.

(** ** The earlier copy *)

(** In the earlier copy the text of the Commit Changes field is dropped:
    the commit message is always "Commit from Gitify". *)
Lemma rev1_commit_message_is_fixed (o : Oracle) (h : list Event) (text : string) :
  o h (FormRun commitForm) = ((text, tt), None) ->
  run o h (Rev1.handleGitAction "Commit Changes") =
  (Done (commandText (o (h ++ [FormRun commitForm])%list
                        (CombinedOutput ["commit"; "-am"; "Commit from Gitify"]))),
   (h ++ [FormRun commitForm;
          CombinedOutput ["commit"; "-am"; "Commit from Gitify"]])%list).
Proof.
  intro Hform. unfold Rev1.handleGitAction. simpl. rewrite Hform. simpl.
  rewrite <- app_assoc. reflexivity.
Qed.

(** ** More on the status parser *)

Lemma free_of_slice_from (c : ascii) (n : nat) (s : string) :
  free_of c s = true -> free_of c (slice_from n s) = true.
Proof.
  revert s. induction n as [| n IH]; intros s H.
  - destruct s; exact H.
  - destruct s as [| a s]; [reflexivity |].
    simpl in H. apply andb_true_iff in H. destruct H as [_ H].
    simpl. apply IH. exact H.
Qed.

Lemma length_slice_from (n : nat) (s : string) :
  String.length (slice_from n s) = String.length s - n.
Proof.
  revert s. induction n as [| n IH]; intros s.
  - destruct s; simpl; lia.
  - destruct s as [| a s]; [reflexivity |]. simpl. apply IH.
Qed.

Lemma collectFiles_paths (lines files : list string) :
  Forall (fun path => path <> "" /\ free_of newline path = true) files ->
  Forall (fun line => free_of newline line = true) lines ->
  Forall (fun path => path <> "" /\ free_of newline path = true) (collectFiles files lines).
Proof.
  revert files. induction lines as [| line rest IH]; intros files Hfiles Hlines.
  - exact Hfiles.
  - inversion Hlines as [| ? ? Hline Hrest]; subst.
    cbn [collectFiles]. destruct (3 <? len line)%nat eqn:E.
    + apply IH; [| exact Hrest].
      apply Forall_app. split; [exact Hfiles |].
      constructor; [| constructor]. split.
      * intro Hempty. apply Nat.ltb_lt in E. unfold len in E.
        pose proof (length_slice_from 3 line) as L.
        rewrite Hempty in L. simpl in L. lia.
      * apply free_of_slice_from. exact Hline.
    + apply IH; assumption.
Qed.

(** X1: no path the parser returns is empty, and none contains a
    newline. *)
Theorem parseChangedFiles_paths (statusOutput : string) :
  Forall (fun path => path <> "" /\ free_of newline path = true)
         (parseChangedFiles statusOutput).
Proof.
  unfold parseChangedFiles. apply collectFiles_paths.
  - constructor.
  - apply Split_free_of.
Qed.

Lemma Split_app_sep (a b : string) (sep : ascii) :
  Split (a ++ String sep b) sep = (Split a sep ++ Split b sep)%list.
Proof.
  induction a as [| x a IH]; simpl.
  - rewrite Ascii.eqb_refl. reflexivity.
  - destruct (Ascii.eqb x sep).
    + rewrite IH. reflexivity.
    + rewrite IH. pose proof (Split_not_nil a sep) as N.
      destruct (Split a sep) as [| p ps]; [contradiction | reflexivity].
Qed.

Lemma collectFiles_app (l1 l2 files : list string) :
  collectFiles files (l1 ++ l2) = collectFiles (collectFiles files l1) l2.
Proof.
  revert files. induction l1 as [| line rest IH]; intro files.
  - reflexivity.
  - cbn [app collectFiles]. destruct (3 <? len line)%nat; apply IH.
Qed.

Lemma parseChangedFiles_app (a b : string) :
  parseChangedFiles (a ++ String newline b) =
  (parseChangedFiles a ++ parseChangedFiles b)%list.
Proof.
  unfold parseChangedFiles.
  rewrite Split_app_sep, collectFiles_app.
  rewrite (collectFiles_spec (Split b newline) (collectFiles [] (Split a newline))).
  rewrite (collectFiles_spec (Split b newline) []). reflexivity.
Qed.

(** X2: parsing two status texts joined by a newline gives the paths of
    the first followed by the paths of the second. *)
Theorem parseChangedFiles_concat (first second : string) :
  parseChangedFiles (first ++ nl ++ second) =
  (parseChangedFiles first ++ parseChangedFiles second)%list.
Proof.
  apply parseChangedFiles_app.
Qed.

Lemma Split_free (s : string) (sep : ascii) :
  free_of sep s = true -> Split s sep = [s].
Proof.
  induction s as [| c s IH]; simpl; intro H.
  - reflexivity.
  - apply andb_true_iff in H. destruct H as [Hc Hs].
    apply negb_true_iff in Hc. rewrite Hc, (IH Hs). reflexivity.
Qed.

Lemma parseChangedFiles_line (entry : ascii * ascii * string) :
  wellFormedEntry entry ->
  parseChangedFiles (statusLine entry) = [snd entry].
Proof.
  destruct entry as [[x y] path]. intros [Hx [Hy [Hpath Hfree]]].
  unfold parseChangedFiles. rewrite Split_free.
  - cbn [statusLine collectFiles]. destruct path as [| c path]; [contradiction |].
    reflexivity.
  - simpl. rewrite Hfree.
    apply Ascii.eqb_neq in Hx, Hy. rewrite Hx, Hy. reflexivity.
Qed.

(** X3: the parser gives back the paths of a listing that carries them
    one per line behind their status bytes, in the order of the
    listing. *)
Theorem parseChangedFiles_renderStatus (entries : list (ascii * ascii * string)) :
  Forall wellFormedEntry entries ->
  parseChangedFiles (renderStatus entries) = map snd entries.
Proof.
  induction entries as [| entry rest IH]; intro Hwf.
  - reflexivity.
  - inversion Hwf as [| ? ? Hentry Hrest]; subst.
    cbn [renderStatus map].
    rewrite parseChangedFiles_app, (parseChangedFiles_line entry Hentry), (IH Hrest).
    reflexivity.
Qed.

Lemma parseChangedFiles_renderStatus_witness :
  parseChangedFiles (renderStatus [(" "%char, "M"%char, "main.go");
                                   ("?"%char, "?"%char, "docs/x y.md")]) =
  ["main.go"; "docs/x y.md"].
Proof.
  apply (parseChangedFiles_renderStatus [(" "%char, "M"%char, "main.go");
                                         ("?"%char, "?"%char, "docs/x y.md")]).
  repeat constructor; discriminate.
Defined.

(** ** The text of a failed command *)

Lemma HasPrefix_app_sep (c : ascii) (marker a b : string) :
  free_of c marker = true ->
  HasPrefix (a ++ String c b) marker = HasPrefix a marker.
Proof.
  revert a. induction marker as [| y marker IH]; intros a Hfree.
  - destruct a; reflexivity.
  - simpl in Hfree. apply andb_true_iff in Hfree. destruct Hfree as [Hy Hfree].
    apply negb_true_iff in Hy.
    destruct a as [| x a]; simpl.
    + rewrite Hy. reflexivity.
    + rewrite (IH a Hfree). reflexivity.
Qed.

Lemma Contains_app_sep (c : ascii) (marker a b : string) :
  free_of c marker = true ->
  Contains (a ++ String c b) marker = (Contains a marker || Contains b marker)%bool.
Proof.
  intro Hfree. induction a as [| x a IH].
  - change (Contains ("" ++ String c b) marker)
      with (HasPrefix ("" ++ String c b) marker || Contains b marker)%bool.
    rewrite (HasPrefix_app_sep c marker "" b Hfree).
    cbn [Contains]. rewrite orb_false_r. reflexivity.
  - change (Contains (String x a ++ String c b) marker)
      with (HasPrefix (String x a ++ String c b) marker
            || Contains (a ++ String c b) marker)%bool.
    rewrite (HasPrefix_app_sep c marker (String x a) b Hfree), IH.
    cbn [Contains]. rewrite !orb_assoc. reflexivity.
Qed.

Lemma markerb_failed (out err : string) :
  markerb (commandText (out, Some err)) = (markerb err || markerb out)%bool.
Proof.
  unfold markerb, commandText.
  change ("Error: " ++ err ++ nl ++ out) with ("Error: " ++ (err ++ String newline out)).
  assert (Herror : forall s, Contains ("Error: " ++ s) "error" = Contains s "error").
  { intro s. cbn. destruct s; reflexivity. }
  assert (Hfatal : forall s, Contains ("Error: " ++ s) "fatal" = Contains s "fatal").
  { intro s. cbn. destruct s; reflexivity. }
  rewrite Herror, Hfatal.
  rewrite !Contains_app_sep by reflexivity.
  destruct (Contains err "error"), (Contains out "error"),
           (Contains err "fatal"), (Contains out "fatal"); reflexivity.
Qed.

(** X4: the text [executeGitCommand] returns for a failed invocation
    carries a failure marker exactly when the error text or the captured
    output carries one: the "Error: " in front of it is not a marker. *)
Theorem failed_command_marker (out err : string) :
  hasFailureMarker (commandText (out, Some err)) <->
  hasFailureMarker err \/ hasFailureMarker out.
Proof.
  rewrite <- !failureMarker_spec.
  change (markerb (commandText (out, Some err)) = true <->
          markerb err = true \/ markerb out = true).
  rewrite markerb_failed. apply orb_true_iff.
Qed.

(** ** More on Stage Changes *)

(** Without a pseudo-option the loop runs to its end. *)
Lemma stageSelected_plain (files selectedOptions rest : list string) :
  ~ In "select_all" rest -> ~ In "deselect_all" rest ->
  stageSelected files selectedOptions rest = executeGitCommand ("add" :: selectedOptions).
Proof.
  induction rest as [| x rest IH]; intros Hsel Hdes; simpl.
  - reflexivity.
  - destruct (x =? "select_all") eqn:E1.
    + apply String.eqb_eq in E1. exfalso. apply Hsel. left. exact E1.
    + destruct (x =? "deselect_all") eqn:E2.
      * apply String.eqb_eq in E2. exfalso. apply Hdes. left. exact E2.
      * apply IH; intro Hin; [apply Hsel | apply Hdes]; right; exact Hin.
Qed.

Section MoreStageChanges.

Variable TrimSpace : string -> string.
Variable o : Oracle.

Lemma run_stage_plain (h : list Event) (selectedOptions : list string) :
  let status := Output ["status"; "--porcelain"] in
  let files := statusFiles (o h status) in
  let form := FormRun (stageForm files) in
  files <> [] ->
  o (h ++ [status])%list form = ((selectedOptions, tt), None) ->
  selectedOptions <> [] ->
  ~ In "select_all" selectedOptions -> ~ In "deselect_all" selectedOptions ->
  run o h (handleGitAction TrimSpace "Stage Changes") =
  (Done (commandText (o (h ++ [status; form])%list (CombinedOutput ("add" :: selectedOptions)))),
   (h ++ [status; form; CombinedOutput ("add" :: selectedOptions)])%list).
Proof.
  intros status files form Hfiles Hform Hne Hsel Hdes.
  rewrite (run_stage_form TrimSpace o h Hfiles).
  fold status. fold files. fold form. rewrite Hform.
  destruct selectedOptions as [| s ss]; [contradiction |].
  rewrite (stageSelected_plain _ _ _ Hsel Hdes), run_executeGitCommand.
  rewrite <- app_assoc. reflexivity.
Qed.

(** X5: when the status text has no line longer than three bytes, Stage
    Changes returns "No unstaged changes found." after the status query
    alone: no form is shown and nothing is staged. *)
Theorem stage_without_changes (h : list Event) :
  statusFiles (o h (Output ["status"; "--porcelain"])) = [] ->
  run o h (handleGitAction TrimSpace "Stage Changes") =
  (Done "No unstaged changes found.", (h ++ [Output ["status"; "--porcelain"]])%list).
Proof.
  intro Hfiles.
  rewrite (run_handleGitAction TrimSpace o h "Stage Changes" caseStageChanges eq_refl).
  unfold caseStageChanges. rewrite run_bind, run_getUnstagedFiles, Hfiles. reflexivity.
Qed.

(** X6: when the form completes with nothing selected, Stage Changes
    returns "No files selected." and issues no stage command. *)
Theorem stage_empty_selection (h : list Event) :
  let status := Output ["status"; "--porcelain"] in
  let files := statusFiles (o h status) in
  let form := FormRun (stageForm files) in
  files <> [] ->
  o (h ++ [status])%list form = (([], tt), None) ->
  run o h (handleGitAction TrimSpace "Stage Changes") =
  (Done "No files selected.", (h ++ [status; form])%list).
Proof.
  intros status files form Hfiles Hform.
  rewrite (run_stage_form TrimSpace o h Hfiles).
  fold status. fold files. fold form. rewrite Hform. reflexivity.
Qed.

(** X7: a completed selection that is not empty and holds neither
    pseudo-option is staged as it is: one [git add] with the selected
    paths in the order of the selection, whose text is returned. *)
Theorem stage_selected_paths (h : list Event) (selectedOptions : list string) :
  let status := Output ["status"; "--porcelain"] in
  let files := statusFiles (o h status) in
  let form := FormRun (stageForm files) in
  files <> [] ->
  o (h ++ [status])%list form = ((selectedOptions, tt), None) ->
  selectedOptions <> [] ->
  ~ In "select_all" selectedOptions -> ~ In "deselect_all" selectedOptions ->
  run o h (handleGitAction TrimSpace "Stage Changes") =
  (Done (commandText (o (h ++ [status; form])%list (CombinedOutput ("add" :: selectedOptions)))),
   (h ++ [status; form; CombinedOutput ("add" :: selectedOptions)])%list).
Proof.
  exact (run_stage_plain h selectedOptions).
Qed.

(** X8: when the status query itself fails, Stage Changes does not stop:
    the form offers the one candidate "Error fetching status", and
    selecting it runs [git add] on that text. *)
Theorem stage_after_failed_status (h : list Event) (out e : string) :
  let status := Output ["status"; "--porcelain"] in
  let form := FormRun (stageForm ["Error fetching status"]) in
  o h status = (out, Some e) ->
  o (h ++ [status])%list form = ((["Error fetching status"], tt), None) ->
  run o h (handleGitAction TrimSpace "Stage Changes") =
  (Done (commandText (o (h ++ [status; form])%list
                        (CombinedOutput ["add"; "Error fetching status"]))),
   (h ++ [status; form; CombinedOutput ["add"; "Error fetching status"]])%list).
Proof.
  intros status form Hstatus Hform.
  assert (Hfiles : statusFiles (o h status) = ["Error fetching status"]).
  { rewrite Hstatus. reflexivity. }
  pose proof (run_stage_plain h ["Error fetching status"]) as R.
  cbv zeta in R. fold status in R. rewrite Hfiles in R. fold form in R.
  apply R.
  - discriminate.
  - exact Hform.
  - discriminate.
  - simpl. intros [H | []]. discriminate H.
  - simpl. intros [H | []]. discriminate H.
Qed.

End MoreStageChanges.

Lemma stage_without_changes_witness :
  run (scripted silentGit [] None) [] (handleGitAction asciiTrimSpace "Stage Changes") =
  (Done "No unstaged changes found.", [Output ["status"; "--porcelain"]]).
Proof.
  exact (stage_without_changes asciiTrimSpace (scripted silentGit [] None) [] eq_refl).
Defined.

Lemma stage_empty_selection_witness :
  run (scripted oneFileGit [AnyStrings []] None) []
      (handleGitAction asciiTrimSpace "Stage Changes") =
  (Done "No files selected.",
   [Output ["status"; "--porcelain"]; FormRun (stageForm ["notes.txt"])]).
Proof.
  apply (stage_empty_selection asciiTrimSpace (scripted oneFileGit [AnyStrings []] None) []).
  - discriminate.
  - reflexivity.
Defined.

Lemma stage_selected_paths_witness :
  run (scripted statusGit [AnyStrings ["docs/x.md"; "main.go"]] None) []
      (handleGitAction asciiTrimSpace "Stage Changes") =
  (Done (fst (statusGit [])),
   [Output ["status"; "--porcelain"];
    FormRun (stageForm ["main.go"; "a"; "docs/x.md"]);
    CombinedOutput ["add"; "docs/x.md"; "main.go"]]).
Proof.
  apply (stage_selected_paths asciiTrimSpace
           (scripted statusGit [AnyStrings ["docs/x.md"; "main.go"]] None)
           [] ["docs/x.md"; "main.go"]).
  - discriminate.
  - reflexivity.
  - discriminate.
  - simpl. intros [H | [H | []]]; discriminate H.
  - simpl. intros [H | [H | []]]; discriminate H.
Defined.

Lemma stage_after_failed_status_witness :
  run (scripted failingGit [AnyStrings ["Error fetching status"]] None) []
      (handleGitAction asciiTrimSpace "Stage Changes") =
  (Done ("Error: exit status 3" ++ nl),
   [Output ["status"; "--porcelain"];
    FormRun (stageForm ["Error fetching status"]);
    CombinedOutput ["add"; "Error fetching status"]]).
Proof.
  exact (stage_after_failed_status asciiTrimSpace
           (scripted failingGit [AnyStrings ["Error fetching status"]] None)
           [] "" "exit status 3" eq_refl eq_refl).
Defined.

(** ** More on the dispatcher *)

Section MoreDispatcher.

Variable TrimSpace : string -> string.
Variable o : Oracle.

(** X9: each of the seven actions without input runs its one command,
    with the arguments main.go fixes for it, and returns the text of
    [executeGitCommand] unchanged. *)
Theorem fixed_action_runs_one_command (h : list Event) (action : string) (args : list string) :
  In (action, args) fixedActions ->
  run o h (handleGitAction TrimSpace action) =
  (Done (commandText (o h (CombinedOutput args))), (h ++ [CombinedOutput args])%list).
Proof.
  intro Hin. unfold fixedActions in Hin. simpl in Hin.
  repeat (destruct Hin as [Hin | Hin];
          [injection Hin as <- <-; reflexivity |]).
  contradiction.
Qed.

(** X10: an action that is not an entry of the menu returns "Unknown
    action." without any event. *)
Theorem unknown_action_does_nothing (h : list Event) (action : string) :
  ~ In action menuOptions ->
  run o h (handleGitAction TrimSpace action) = (Done "Unknown action.", h).
Proof.
  intro Hnot.
  assert (E : forall entry, In entry menuOptions -> (action =? entry) = false).
  { intros entry Hin. apply String.eqb_neq. intros ->. contradiction. }
  unfold handleGitAction.
  rewrite !E by (unfold menuOptions; simpl; auto 20).
  reflexivity.
Qed.

(** X11: when the trimmed text of the branch query contains "fatal", Push
    to Remote returns the branch failure message after that query alone. *)
Theorem push_stops_on_fatal_branch (h : list Event) :
  Contains (TrimSpace (commandText (o h (CombinedOutput ["rev-parse"; "--abbrev-ref"; "HEAD"]))))
           "fatal" = true ->
  run o h (handleGitAction TrimSpace "Push to Remote") =
  (Done "Failed to get current branch.",
   (h ++ [CombinedOutput ["rev-parse"; "--abbrev-ref"; "HEAD"]])%list).
Proof.
  intro Hfatal.
  rewrite (run_handleGitAction TrimSpace o h "Push to Remote"
             (casePushToRemote TrimSpace) eq_refl).
  unfold casePushToRemote. rewrite run_bind, run_executeGitCommand.
  rewrite Hfatal, orb_true_r. reflexivity.
Qed.

(** X12: when the branch is resolved and the text of [git remote] is
    empty, Push to Remote returns "No remotes found. Add a remote first."
    after the two queries: no form is shown and nothing is pushed. *)
Theorem push_stops_without_remotes (h : list Event) :
  let query := CombinedOutput ["rev-parse"; "--abbrev-ref"; "HEAD"] in
  let listing := CombinedOutput ["remote"] in
  let currentBranch := TrimSpace (commandText (o h query)) in
  currentBranch <> "" -> Contains currentBranch "fatal" = false ->
  commandText (o (h ++ [query]) listing)%list = "" ->
  run o h (handleGitAction TrimSpace "Push to Remote") =
  (Done "No remotes found. Add a remote first.", (h ++ [query; listing])%list).
Proof.
  intros query listing currentBranch Hbranch Hfatal Hremotes.
  rewrite (run_handleGitAction TrimSpace o h "Push to Remote"
             (casePushToRemote TrimSpace) eq_refl).
  unfold casePushToRemote. rewrite run_bind, run_executeGitCommand.
  fold query. fold currentBranch.
  apply String.eqb_neq in Hbranch. rewrite Hbranch, Hfatal. cbn [orb].
  rewrite run_bind, run_executeGitCommand. fold listing. rewrite Hremotes.
  cbn [String.eqb run]. rewrite <- app_assoc. reflexivity.
Qed.

(** X13: a completed Push to Remote form leads to one push command:
    "push", then "--set-upstream" exactly when the user confirmed it, then
    the selected remote and the branch.  The branch is the text of the
    field, or the current branch when the field was left empty, and is
    never empty. *)
Theorem push_arguments (h : list Event) (selectedRemote branch : string) (setUpstream : bool) :
  let query := CombinedOutput ["rev-parse"; "--abbrev-ref"; "HEAD"] in
  let listing := CombinedOutput ["remote"] in
  let currentBranch := TrimSpace (commandText (o h query)) in
  let remotesOutput := commandText (o (h ++ [query]) listing)%list in
  let form := FormRun (pushForm (Split (TrimSpace remotesOutput) newline) currentBranch) in
  currentBranch <> "" -> Contains currentBranch "fatal" = false ->
  remotesOutput <> "" ->
  o ((h ++ [query]) ++ [listing])%list form = ((selectedRemote, (branch, (setUpstream, tt))), None) ->
  exists (text branchName : string),
    run o h (handleGitAction TrimSpace "Push to Remote") =
    (Done text,
     (h ++ [query; listing; form;
            CombinedOutput ("push" :: (if setUpstream then ["--set-upstream"] else [])
                                   ++ [selectedRemote; branchName])])%list) /\
    branchName <> "" /\
    (branch = "" -> branchName = currentBranch) /\
    (branch <> "" -> branchName = branch).
Proof.
  intros query listing currentBranch remotesOutput form Hbranch Hfatal Hremotes Hform.
  pose proof (run_push TrimSpace o h selectedRemote branch setUpstream
                Hbranch Hfatal Hremotes Hform) as R.
  cbv zeta in R. fold query listing currentBranch remotesOutput form in R.
  eexists. exists (if branch =? "" then currentBranch else branch).
  split; [| split; [| split]].
  - rewrite R. destruct setUpstream; reflexivity.
  - destruct (branch =? "") eqn:E; [exact Hbranch |].
    apply String.eqb_neq. exact E.
  - intros ->. reflexivity.
  - intro Hne. apply String.eqb_neq in Hne. rewrite Hne. reflexivity.
Qed.

End MoreDispatcher.

Lemma fixed_action_runs_one_command_witness :
  run (scripted silentGit [] None) [] (handleGitAction asciiTrimSpace "Merge Branch") =
  (Done "", [CombinedOutput ["merge"; "main"]]).
Proof.
  apply (fixed_action_runs_one_command asciiTrimSpace (scripted silentGit [] None)
           [] "Merge Branch" ["merge"; "main"]).
  simpl. auto 10.
Defined.

Lemma unknown_action_does_nothing_witness :
  run (scripted silentGit [] None) [] (handleGitAction asciiTrimSpace "Rebase") =
  (Done "Unknown action.", []).
Proof.
  apply (unknown_action_does_nothing asciiTrimSpace (scripted silentGit [] None) [] "Rebase").
  simpl. intuition discriminate.
Defined.

Lemma push_stops_on_fatal_branch_witness :
  run (scripted fatalGit [] None) [] (handleGitAction asciiTrimSpace "Push to Remote") =
  (Done "Failed to get current branch.",
   [CombinedOutput ["rev-parse"; "--abbrev-ref"; "HEAD"]]).
Proof.
  exact (push_stops_on_fatal_branch asciiTrimSpace (scripted fatalGit [] None) [] eq_refl).
Defined.

Lemma push_stops_without_remotes_witness :
  run (scripted noRemoteGit [] None) [] (handleGitAction asciiTrimSpace "Push to Remote") =
  (Done "No remotes found. Add a remote first.",
   [CombinedOutput ["rev-parse"; "--abbrev-ref"; "HEAD"]; CombinedOutput ["remote"]]).
Proof.
  apply (push_stops_without_remotes asciiTrimSpace (scripted noRemoteGit [] None) []).
  - discriminate.
  - reflexivity.
  - reflexivity.
Defined.

Lemma push_arguments_witness :
  exists text branchName : string,
    run (scripted fatalPushGit [AnyString "origin"; AnyString ""; AnyBool false] None) []
        (handleGitAction asciiTrimSpace "Push to Remote") =
    (Done text,
     [CombinedOutput ["rev-parse"; "--abbrev-ref"; "HEAD"];
      CombinedOutput ["remote"];
      FormRun (pushForm ["origin"] "main");
      CombinedOutput ["push"; "origin"; branchName]]) /\
    branchName <> "" /\
    ("" = "" -> branchName = "main") /\
    ("" <> "" -> branchName = "").
Proof.
  apply (push_arguments asciiTrimSpace
           (scripted fatalPushGit [AnyString "origin"; AnyString ""; AnyBool false] None)
           [] "origin" "" false).
  - discriminate.
  - reflexivity.
  - discriminate.
  - reflexivity.
Defined.

(** ** What no dispatch does *)

Lemma run_extends {A : Type} (o : Oracle) (p : Prog A) :
  forall h, exists new : list Event, snd (run o h p) = (h ++ new)%list.
Proof.
  induction p as [a | msg | e k IH]; intro h; simpl.
  - exists []. rewrite app_nil_r. reflexivity.
  - exists []. rewrite app_nil_r. reflexivity.
  - destruct (IH (o h e) (h ++ [e])%list) as [new E].
    exists (e :: new). rewrite E, <- app_assoc. reflexivity.
Qed.

Lemma always_run {A : Type} (P : Event -> Prop) (o : Oracle) (p : Prog A) :
  always P p ->
  forall h, exists new : list Event,
    snd (run o h p) = (h ++ new)%list /\ Forall P new.
Proof.
  induction p as [a | msg | e k IH]; simpl; intros Hp h.
  - exists []. rewrite app_nil_r. split; [reflexivity | constructor].
  - exists []. rewrite app_nil_r. split; [reflexivity | constructor].
  - destruct Hp as [He Hk].
    destruct (IH (o h e) (Hk (o h e)) (h ++ [e])%list) as [new [E Hnew]].
    exists (e :: new). rewrite E, <- app_assoc.
    split; [reflexivity | constructor; assumption].
Qed.

Lemma atMost_run {A : Type} (o : Oracle) (p : Prog A) :
  forall c f, atMost c f p ->
  forall h, exists new : list Event,
    snd (run o h p) = (h ++ new)%list /\
    length (commands new) <= c /\ forms new <= f.
Proof.
  induction p as [a | msg | e k IH]; simpl; intros c f Hp h.
  - exists []. rewrite app_nil_r. unfold forms. repeat split; simpl; lia.
  - exists []. rewrite app_nil_r. unfold forms. repeat split; simpl; lia.
  - destruct Hp as [Hc [Hf Hk]].
    destruct (IH (o h e) _ _ (Hk (o h e)) (h ++ [e])%list) as [new [E [Lc Lf]]].
    exists (e :: new). rewrite E, <- app_assoc.
    split; [reflexivity |].
    unfold forms in *. destruct e; simpl in *;
      first [ specialize (Hc eq_refl) | specialize (Hf eq_refl) | idtac ]; lia.
Qed.

Lemma always_bind {A B : Type} (P : Event -> Prop) (p : Prog A) (k : A -> Prog B) :
  always P p -> (forall a, always P (k a)) -> always P (bind p k).
Proof.
  induction p as [a | msg | e k' IH]; simpl; intros Hp Hk.
  - apply Hk.
  - exact I.
  - destruct Hp as [He Hk']. split; [exact He |]. intro r. apply IH; [apply Hk' | exact Hk].
Qed.

Lemma atMost_mono {A : Type} (p : Prog A) :
  forall c f c' f', c <= c' -> f <= f' -> atMost c f p -> atMost c' f' p.
Proof.
  induction p as [a | msg | e k IH]; simpl; intros c f c' f' Hc Hf Hp.
  - exact I.
  - exact I.
  - destruct Hp as [Hpc [Hpf Hk]]. split; [| split].
    + intro E. specialize (Hpc E). lia.
    + intro E. specialize (Hpf E). lia.
    + intro r. apply (IH r _ _ _ _) with (3 := Hk r);
        [destruct (isCommand e) | destruct (isForm e)]; lia.
Qed.

Lemma atMost_bind {A B : Type} (p : Prog A) (k : A -> Prog B) :
  forall c f, atMost c f p -> (forall a, atMost 0 0 (k a)) -> atMost c f (bind p k).
Proof.
  induction p as [a | msg | e k' IH]; simpl; intros c f Hp Hk.
  - apply (atMost_mono (k a) 0 0); [lia | lia | apply Hk].
  - exact I.
  - destruct Hp as [Hc [Hf Hk']]. split; [exact Hc | split; [exact Hf |]].
    intro r. apply IH; [apply Hk' | exact Hk].
Qed.

Lemma always_stageSelected (files selectedOptions rest : list string) :
  always knownSubcommand (stageSelected files selectedOptions rest).
Proof.
  induction rest as [| selected rest IH]; cbn [stageSelected].
  - simpl. split; [auto 10 | intros _; exact I].
  - destruct (selected =? "select_all").
    + simpl. split; [auto 10 | intros _; exact I].
    + destruct (selected =? "deselect_all"); [exact I | exact IH].
Qed.

Lemma atMost_stageSelected (files selectedOptions rest : list string) (c f : nat) :
  atMost (S c) f (stageSelected files selectedOptions rest).
Proof.
  induction rest as [| selected rest IH]; cbn [stageSelected].
  - simpl. split; [intros _; lia | split; [discriminate | intros _; exact I]].
  - destruct (selected =? "select_all").
    + simpl. split; [intros _; lia | split; [discriminate | intros _; exact I]].
    + destruct (selected =? "deselect_all"); [exact I | exact IH].
Qed.

Lemma always_handleGitAction (TrimSpace : string -> string) (action : string) :
  always knownSubcommand (handleGitAction TrimSpace action).
Proof.
  unfold handleGitAction. apply always_bind; [| intros [text |]; exact I].
  repeat match goal with
         | |- always _ (if ?c then _ else _) => destruct c
         end;
    unfold returnCommand, caseAddRemote, caseStageChanges, caseCommitChanges,
           casePushToRemote;
    repeat dispatch_step (@always_bind string (option string) knownSubcommand)
                         always_stageSelected.
Qed.

Lemma atMost_handleGitAction (TrimSpace : string -> string) (action : string) :
  atMost 3 1 (handleGitAction TrimSpace action).
Proof.
  unfold handleGitAction. apply atMost_bind; [| intros [text |]; exact I].
  repeat match goal with
         | |- atMost _ _ (if ?c then _ else _) => destruct c
         end;
    unfold returnCommand, caseAddRemote, caseStageChanges, caseCommitChanges,
           casePushToRemote;
    repeat dispatch_step (@atMost_bind string (option string)) atMost_stageSelected.
Qed.

(** X14: whatever the action and whatever the user and git answer, every
    process a dispatch spawns runs one of the twelve subcommands written
    in main.go: text from a form is never the subcommand. *)
Theorem dispatch_runs_known_subcommands
        (TrimSpace : string -> string) (o : Oracle) (h : list Event) (action : string) :
  exists new : list Event,
    snd (run o h (handleGitAction TrimSpace action)) = (h ++ new)%list /\
    Forall knownSubcommand new.
Proof.
  apply always_run, always_handleGitAction.
Qed.

(** X15: a dispatch spawns at most three processes and shows at most one
    form. *)
Theorem dispatch_is_bounded
        (TrimSpace : string -> string) (o : Oracle) (h : list Event) (action : string) :
  exists new : list Event,
    snd (run o h (handleGitAction TrimSpace action)) = (h ++ new)%list /\
    length (commands new) <= 3 /\ forms new <= 1.
Proof.
  apply atMost_run, atMost_handleGitAction.
Qed.

(** ** The earlier copy of the dispatcher *)

(** X17: in the earlier copy a completed Commit Changes form leads to one
    commit whose message is "Commit from Gitify", whatever the text of the
    field. *)
Theorem rev1_commit_ignores_text (o : Oracle) (h : list Event) (text : string) :
  o h (FormRun commitForm) = ((text, tt), None) ->
  run o h (Rev1.handleGitAction "Commit Changes") =
  (Done (commandText (o (h ++ [FormRun commitForm])%list
                        (CombinedOutput ["commit"; "-am"; "Commit from Gitify"]))),
   (h ++ [FormRun commitForm;
          CombinedOutput ["commit"; "-am"; "Commit from Gitify"]])%list).
Proof.
  intro Hform. unfold Rev1.handleGitAction. simpl. rewrite Hform. simpl.
  rewrite <- app_assoc. reflexivity.
Qed.

Lemma rev1_commit_ignores_text_witness :
  run (scripted silentGit [AnyString "fix the parser"] None) []
      (Rev1.handleGitAction "Commit Changes") =
  (Done "", [FormRun commitForm; CombinedOutput ["commit"; "-am"; "Commit from Gitify"]]).
Proof.
  exact (rev1_commit_ignores_text (scripted silentGit [AnyString "fix the parser"] None)
           [] "fix the parser" eq_refl).
Defined.

(** ** More on the keys *)

Section Keys.

Variable TrimSpace : string -> string.
Variable o : Oracle.

Lemma run_Update_down (h : list Event) (m : model) :
  in_menu m ->
  run o h (Update TrimSpace m (KeyMsg "down")) =
  (Done ({| menuIndex := Z.min (menuIndex m + 1) lastIndex; output := output m |}, CmdNil), h).
Proof.
  unfold in_menu. rewrite lastIndex_value. intro Hm.
  unfold Update. cbn [String.eqb Ascii.eqb Bool.eqb].
  change (wrap64 (Z.of_nat (length menuOptions) - 1)) with 10%Z.
  destruct (menuIndex m <? 10)%Z eqn:E.
  - apply Z.ltb_lt in E. rewrite wrap64_small by lia.
    rewrite Z.min_l by lia. reflexivity.
  - apply Z.ltb_ge in E. rewrite Z.min_r by lia.
    destruct m as [i out]. cbn [menuIndex output] in *.
    replace i with 10%Z by lia. reflexivity.
Qed.

Lemma run_Update_up (h : list Event) (m : model) :
  in_menu m ->
  run o h (Update TrimSpace m (KeyMsg "up")) =
  (Done ({| menuIndex := Z.max (menuIndex m - 1) 0; output := output m |}, CmdNil), h).
Proof.
  unfold in_menu. rewrite lastIndex_value. intro Hm.
  unfold Update. cbn [String.eqb Ascii.eqb Bool.eqb].
  destruct (menuIndex m >? 0)%Z eqn:E.
  - apply Z.gtb_lt in E. rewrite wrap64_small by lia.
    rewrite Z.max_l by lia. reflexivity.
  - assert (menuIndex m <= 0)%Z by (rewrite Z.gtb_ltb in E; apply Z.ltb_ge in E; exact E).
    rewrite Z.max_r by lia.
    destruct m as [i out]. cbn [menuIndex output] in *.
    replace i with 0%Z by lia. reflexivity.
Qed.

(** X18: a message other than the enter key is handled without any event
    and leaves the output as it was; the quit command is returned exactly
    for the key "q". *)
Theorem other_keys_run_nothing (h : list Event) (m : model) (msg : Msg) :
  msg <> KeyMsg "enter" ->
  exists (m' : model) (c : Cmd),
    run o h (Update TrimSpace m msg) = (Done (m', c), h) /\
    output m' = output m /\
    (c = Quit <-> msg = KeyMsg "q").
Proof.
  intro Hmsg. destruct msg as [key |].
  - unfold Update. destruct (key =? "q") eqn:Eq.
    { apply String.eqb_eq in Eq. subst key.
      exists m, Quit. repeat split; reflexivity. }
    assert (Hq : KeyMsg key <> KeyMsg "q").
    { intro H. injection H as ->. discriminate Eq. }
    destruct (key =? "up").
    { eexists _, CmdNil. split; [reflexivity |].
      split; [destruct (menuIndex m >? 0)%Z; reflexivity |].
      split; [discriminate | intro H; contradiction]. }
    destruct (key =? "down").
    { eexists _, CmdNil. split; [reflexivity |].
      split; [match goal with |- context [if ?c then _ else _] => destruct c end;
              reflexivity |].
      split; [discriminate | intro H; contradiction]. }
    destruct (key =? "enter") eqn:Eenter.
    { apply String.eqb_eq in Eenter. subst key. contradiction. }
    exists m, CmdNil. split; [reflexivity |]. split; [reflexivity |].
    split; [discriminate | intro H; contradiction].
  - exists m, CmdNil. split; [reflexivity |]. split; [reflexivity |].
    split; discriminate.
Qed.

(** X19: from an index inside the menu, [n] down keys lead to the index
    [min(i+n, last)] and [n] up keys to [max(i-n, 0)]; the output stays
    and nothing is run. *)
Theorem repeated_keys_saturate (n : nat) :
  forall (h : list Event) (m : model),
    in_menu m ->
    run o h (updates TrimSpace m (repeat (KeyMsg "down") n)) =
      (Done {| menuIndex := Z.min (menuIndex m + Z.of_nat n)
                                  (Z.of_nat (length menuOptions) - 1);
               output := output m |}, h) /\
    run o h (updates TrimSpace m (repeat (KeyMsg "up") n)) =
      (Done {| menuIndex := Z.max (menuIndex m - Z.of_nat n) 0;
               output := output m |}, h).
Proof.
  change (Z.of_nat (length menuOptions) - 1)%Z with 10%Z.
  induction n as [| n IH]; intros h m Hm.
  - unfold in_menu in Hm. rewrite lastIndex_value in Hm.
    destruct m as [i out]. cbn [menuIndex output repeat updates run] in *.
    rewrite Z.min_l, Z.max_l by lia.
    replace (i + Z.of_nat 0)%Z with i by lia.
    replace (i - Z.of_nat 0)%Z with i by lia. split; reflexivity.
  - cbn [repeat updates]. rewrite !run_bind.
    rewrite (run_Update_down h m Hm), (run_Update_up h m Hm).
    rewrite lastIndex_value.
    unfold in_menu in Hm. rewrite lastIndex_value in Hm.
    split.
    + destruct (IH h {| menuIndex := Z.min (menuIndex m + 1) 10; output := output m |})
        as [Hdown _].
      { unfold in_menu. rewrite lastIndex_value. cbn [menuIndex]. lia. }
      rewrite Hdown. cbn [menuIndex output]. do 2 f_equal. f_equal. lia.
    + destruct (IH h {| menuIndex := Z.max (menuIndex m - 1) 0; output := output m |})
        as [_ Hup].
      { unfold in_menu. rewrite lastIndex_value. cbn [menuIndex]. lia. }
      rewrite Hup. cbn [menuIndex output]. do 2 f_equal. f_equal. lia.
Qed.

(** X20: below the last entry, a down key followed by an up key gives the
    model back; above the first entry, so does an up key followed by a
    down key. *)
Theorem down_up_round_trip (h : list Event) (m : model) :
  in_menu m ->
  ((menuIndex m < Z.of_nat (length menuOptions) - 1)%Z ->
   run o h (updates TrimSpace m [KeyMsg "down"; KeyMsg "up"]) = (Done m, h)) /\
  ((0 < menuIndex m)%Z ->
   run o h (updates TrimSpace m [KeyMsg "up"; KeyMsg "down"]) = (Done m, h)).
Proof.
  change (Z.of_nat (length menuOptions) - 1)%Z with 10%Z.
  intro Hm. pose proof Hm as Hm'. unfold in_menu in Hm'. rewrite lastIndex_value in Hm'.
  split; intro Hlt; cbn [updates]; rewrite !run_bind.
  - rewrite (run_Update_down h m Hm), run_bind, run_Update_up.
    + rewrite lastIndex_value. destruct m as [i out]. cbn [menuIndex output run] in *.
      do 2 f_equal. f_equal. lia.
    + unfold in_menu. rewrite lastIndex_value. cbn [menuIndex]. lia.
  - rewrite (run_Update_up h m Hm), run_bind, run_Update_down.
    + rewrite lastIndex_value. destruct m as [i out]. cbn [menuIndex output run] in *.
      do 2 f_equal. f_equal. lia.
    + unfold in_menu. rewrite lastIndex_value. cbn [menuIndex]. lia.
Qed.

(** X21: on a model whose index is outside the menu the enter key panics
    on [menuOptions[m.menuIndex]], before any event. *)
Theorem enter_outside_menu_panics (h : list Event) (m : model) :
  (menuIndex m < 0)%Z \/ (Z.of_nat (length menuOptions) <= menuIndex m)%Z ->
  run o h (Update TrimSpace m (KeyMsg "enter")) = (Panicked "index out of range", h).
Proof.
  intro Hout. unfold Update. cbn [String.eqb Ascii.eqb Bool.eqb].
  rewrite run_bind. unfold index_string.
  destruct (menuIndex m <? 0)%Z eqn:E; [reflexivity |].
  apply Z.ltb_ge in E.
  destruct Hout as [Hneg | Hbig]; [lia |].
  assert (Hnth : nth_error menuOptions (Z.to_nat (menuIndex m)) = None).
  { apply nth_error_None. lia. }
  rewrite Hnth. reflexivity.
Qed.

End Keys.

Lemma other_keys_run_nothing_witness :
  exists (m' : model) (c : Cmd),
    run (scripted silentGit [] None) []
        (Update asciiTrimSpace {| menuIndex := 3; output := "previous" |} (KeyMsg "q")) =
      (Done (m', c), []) /\
    output m' = "previous" /\
    (c = Quit <-> KeyMsg "q" = KeyMsg "q").
Proof.
  apply (other_keys_run_nothing asciiTrimSpace (scripted silentGit [] None) []
           {| menuIndex := 3; output := "previous" |} (KeyMsg "q")).
  discriminate.
Defined.

Lemma repeated_keys_saturate_witness :
  run (scripted silentGit [] None) []
      (updates asciiTrimSpace {| menuIndex := 8; output := "previous" |}
               (repeat (KeyMsg "down") 5)) =
    (Done {| menuIndex := 10; output := "previous" |}, []) /\
  run (scripted silentGit [] None) []
      (updates asciiTrimSpace {| menuIndex := 8; output := "previous" |}
               (repeat (KeyMsg "up") 5)) =
    (Done {| menuIndex := 3; output := "previous" |}, []).
Proof.
  apply (repeated_keys_saturate asciiTrimSpace (scripted silentGit [] None) 5 []
           {| menuIndex := 8; output := "previous" |}).
  unfold in_menu. rewrite lastIndex_value. simpl. lia.
Defined.

Lemma down_up_round_trip_witness :
  run (scripted silentGit [] None) []
      (updates asciiTrimSpace {| menuIndex := 4; output := "previous" |}
               [KeyMsg "down"; KeyMsg "up"]) =
    (Done {| menuIndex := 4; output := "previous" |}, []) /\
  run (scripted silentGit [] None) []
      (updates asciiTrimSpace {| menuIndex := 4; output := "previous" |}
               [KeyMsg "up"; KeyMsg "down"]) =
    (Done {| menuIndex := 4; output := "previous" |}, []).
Proof.
  assert (Hm : in_menu {| menuIndex := 4; output := "previous" |}).
  { unfold in_menu. rewrite lastIndex_value. simpl. lia. }
  destruct (down_up_round_trip asciiTrimSpace (scripted silentGit [] None) []
              {| menuIndex := 4; output := "previous" |} Hm) as [Hdown Hup].
  split; [apply Hdown | apply Hup]; simpl; lia.
Defined.

Lemma enter_outside_menu_panics_witness :
  run (scripted silentGit [] None) []
      (Update asciiTrimSpace strayModel (KeyMsg "enter")) =
  (Panicked "index out of range", []).
Proof.
  apply (enter_outside_menu_panics asciiTrimSpace (scripted silentGit [] None) [] strayModel).
  right. simpl. lia.
Defined.

(** ** The view *)

Lemma string_app_assoc (a b c : string) : (a ++ b) ++ c = a ++ (b ++ c).
Proof.
  induction a as [| x a IH]; simpl; [reflexivity | rewrite IH; reflexivity].
Qed.

Section ViewFacts.

Variable Render : string -> string -> string.

(** The loop away from the selected index writes plain lines only. *)
Lemma viewOptions_plain (options : list string) :
  forall (b : string) (i menuIndex : Z),
    (menuIndex < i \/ i + Z.of_nat (length options) <= menuIndex)%Z ->
    viewOptions Render menuIndex b i options =
    b ++ concatStrings (map plainLine options).
Proof.
  induction options as [| option rest IH]; intros b i mi Hout.
  - simpl. clear. induction b as [| x b IHb]; simpl; [| rewrite <- IHb]; reflexivity.
  - cbn [viewOptions map concatStrings].
    replace (i =? mi)%Z with false
      by (symmetry; apply Z.eqb_neq; cbn [length] in Hout; lia).
    rewrite IH by (cbn [length] in Hout; lia).
    unfold plainLine. rewrite string_app_assoc. reflexivity.
Qed.

(** The loop over the selected index writes the cursor line there. *)
Lemma viewOptions_cursor (options : list string) :
  forall (b : string) (i menuIndex : Z),
    (i <= menuIndex < i + Z.of_nat (length options))%Z ->
    let k := Z.to_nat (menuIndex - i) in
    viewOptions Render menuIndex b i options =
    b ++ concatStrings (map plainLine (firstn k options))
      ++ cursorLine Render (nth k options "")
      ++ concatStrings (map plainLine (skipn (S k) options)).
Proof.
  induction options as [| option rest IH]; intros b i mi Hin k.
  - cbn [length] in Hin. lia.
  - cbn [viewOptions]. destruct (i =? mi)%Z eqn:E.
    + apply Z.eqb_eq in E. subst mi.
      assert (Hk : k = 0) by (unfold k; lia). rewrite Hk.
      rewrite viewOptions_plain by lia.
      cbn [firstn skipn nth map concatStrings].
      unfold cursorLine. rewrite !string_app_assoc. reflexivity.
    + apply Z.eqb_neq in E. cbn [length] in Hin.
      assert (Hk : k = S (Z.to_nat (mi - (i + 1)))) by (unfold k; lia). rewrite Hk.
      rewrite IH by lia.
      cbn [firstn skipn nth map concatStrings].
      unfold plainLine. rewrite !string_app_assoc. reflexivity.
Qed.

(** X22: the view is the title, one line per menu entry, the rendered
    output and the hint.  For an index inside the menu the entry at the
    index, and no other, is written as the cursor line; for an index
    outside the menu every entry is written as a plain line. *)
Theorem View_marks_selected_entry (m : model) :
  let title := "Gitify - Manage Git Repos" ++ nl ++ nl in
  let foot := nl ++ Render "#cdd6f4" (output m) ++ nl ++ "Press 'q' to exit." in
  (in_menu m ->
   let k := Z.to_nat (menuIndex m) in
   View Render m =
   title ++ concatStrings (map plainLine (firstn k menuOptions))
         ++ cursorLine Render (nth k menuOptions "")
         ++ concatStrings (map plainLine (skipn (S k) menuOptions))
         ++ foot) /\
  (~ in_menu m ->
   View Render m = title ++ concatStrings (map plainLine menuOptions) ++ foot).
Proof.
  intros title foot. unfold in_menu. rewrite lastIndex_value. split.
  - intros Hm. unfold View.
    pose proof (viewOptions_cursor menuOptions title 0 (menuIndex m)) as V.
    cbv zeta in V. rewrite Z.sub_0_r in V.
    change ("Gitify - Manage Git Repos" ++ nl ++ nl) with title.
    rewrite V by (cbn [length menuOptions]; lia).
    unfold foot. rewrite !string_app_assoc. reflexivity.
  - intro Hm. unfold View.
    change ("Gitify - Manage Git Repos" ++ nl ++ nl) with title.
    rewrite viewOptions_plain by (cbn [length menuOptions]; lia).
    unfold foot. rewrite !string_app_assoc. reflexivity.
Qed.

End ViewFacts.

Lemma View_marks_selected_entry_witness :
  View plainRender {| menuIndex := 1; output := "done" |} =
    ("Gitify - Manage Git Repos" ++ nl ++ nl)
    ++ concatStrings (map plainLine ["Initialize Repository"])
    ++ cursorLine plainRender "Add Remote"
    ++ concatStrings (map plainLine (skipn 2 menuOptions))
    ++ (nl ++ "done" ++ nl ++ "Press 'q' to exit.") /\
  View plainRender strayModel =
    ("Gitify - Manage Git Repos" ++ nl ++ nl)
    ++ concatStrings (map plainLine menuOptions)
    ++ (nl ++ "" ++ nl ++ "Press 'q' to exit.").
Proof.
  split.
  - apply (proj1 (View_marks_selected_entry plainRender {| menuIndex := 1; output := "done" |})).
    unfold in_menu. rewrite lastIndex_value. simpl. lia.
  - apply (proj2 (View_marks_selected_entry plainRender strayModel)).
    unfold in_menu. rewrite lastIndex_value. simpl. lia.
Defined.
